(** * raymond: the counter service of [main.go]

    A shallow embedding of the persistence and aggregation code of
    [main.go]: the schema migration [Migrate], the write path [Add], the
    background aggregation [CreateAggregate] and the read path [List].

    The Go code is written against three libraries whose behaviour is part
    of the model: [database/sql] (connections, transactions, row
    iteration), the SQL engine behind it (two tables) and [net/http]'s
    [ResponseWriter].  Every library call that can fail in Go takes its
    outcome from an environment record, so that the theorems quantify over
    every failure the code can meet. *)

From Stdlib Require Import ZArith List String Ascii Bool Lia.
From Stdlib Require Import DecimalString.
Import ListNotations.

Local Open Scope string_scope.
Local Open Scope Z_scope.

(** ** Go values *)

Module Go.

(** [int] on a 64-bit platform: two's complement wrap-around. *)
Definition int_min : Z := - 2 ^ 63.
Definition int_max : Z := 2 ^ 63 - 1.

Definition wrap_int (z : Z) : Z := (z + 2 ^ 63) mod 2 ^ 64 - 2 ^ 63.

Definition int_add (a b : Z) : Z := wrap_int (a + b).

(** The double quote character, and a string between double quotes. *)
Definition dq : string := String "034"%char EmptyString.

(** [strconv.Itoa] / the [%d] verb: decimal digits, a leading minus sign
    for negative numbers. *)
Definition itoa (z : Z) : string := NilZero.string_of_int (Z.to_int z).

(** Decimal digits of a non-negative number, zero-padded on the left to
    [width] characters (the [appendInt] of package [time]). *)
Definition pad_int (width : nat) (z : Z) : string :=
  let s := itoa (Z.abs z) in
  let fix zeros (n : nat) : string :=
    match n with O => EmptyString | S n' => String "0"%char (zeros n') end in
  let body := zeros (width - String.length s)%nat ++ s in
  if z <? 0 then String "-"%char body else body.

(** *** errors *)

(** The error values the code can tell apart with [errors.Is], and the
    driver's own errors, which carry only their text. *)
Inductive error : Type :=
| ErrNoRows
| ErrTxDone
| ErrConnDone
| DriverError (msg : string).

(** [err.Error()] *)
Definition Error (e : error) : string :=
  match e with
  | ErrNoRows => "sql: no rows in result set"
  | ErrTxDone => "sql: transaction has already been committed or rolled back"
  | ErrConnDone => "sql: connection is already closed"
  | DriverError msg => msg
  end.

(** [errors.Is(err, sql.ErrNoRows)] *)
Definition is_ErrNoRows (e : error) : bool :=
  match e with ErrNoRows => true | _ => false end.

(** [errors.Is(err, sql.ErrConnDone)] *)
Definition is_ErrConnDone (e : error) : bool :=
  match e with ErrConnDone => true | _ => false end.

(** *** strconv.Quote

    Go's double-quoted string literal of [s], for ASCII text: the quote
    and the backslash are escaped, the control characters are written
    with their short escapes or as [\x] and two hex digits, and the
    printable characters are copied.  Outside ASCII [strconv.Quote]
    decodes UTF-8 and consults the Unicode tables, which this model does
    not have: what is proved about a quoted text is stated for ASCII text
    ([is_ascii]). *)
Definition hex_digit (n : nat) : ascii :=
  match n with
  | 0%nat => "0" | 1%nat => "1" | 2%nat => "2" | 3%nat => "3"
  | 4%nat => "4" | 5%nat => "5" | 6%nat => "6" | 7%nat => "7"
  | 8%nat => "8" | 9%nat => "9" | 10%nat => "a" | 11%nat => "b"
  | 12%nat => "c" | 13%nat => "d" | 14%nat => "e" | _ => "f"
  end%char.

Definition bs : ascii := "\"%char.

Definition quote_char (c : ascii) : string :=
  let n := nat_of_ascii c in
  if (n =? 34)%nat then String bs dq
  else if (n =? 92)%nat then String bs (String bs EmptyString)
  else if (n =? 7)%nat then String bs "a"
  else if (n =? 8)%nat then String bs "b"
  else if (n =? 12)%nat then String bs "f"
  else if (n =? 10)%nat then String bs "n"
  else if (n =? 13)%nat then String bs "r"
  else if (n =? 9)%nat then String bs "t"
  else if (n =? 11)%nat then String bs "v"
  else if ((n <? 32) || (n =? 127))%nat
       then String bs (String "x"%char
              (String (hex_digit (n / 16)) (String (hex_digit (n mod 16)) EmptyString)))
  else String c EmptyString.

Fixpoint quote_body (s : string) : string :=
  match s with
  | EmptyString => EmptyString
  | String c rest => quote_char c ++ quote_body rest
  end.

Definition Quote (s : string) : string := dq ++ quote_body s ++ dq.

(** Every byte of [s] is below 128. *)
Fixpoint is_ascii (s : string) : bool :=
  match s with
  | EmptyString => true
  | String c rest => (nat_of_ascii c <? 128)%nat && is_ascii rest
  end.

(** Every byte of [s] is a printable ASCII character other than the
    double quote and the backslash: such text is quoted as it is. *)
Fixpoint is_plain (s : string) : bool :=
  match s with
  | EmptyString => true
  | String c rest =>
      let n := nat_of_ascii c in
      (32 <=? n)%nat && (n <? 127)%nat && negb (n =? 34)%nat && negb (n =? 92)%nat
      && is_plain rest
  end.

End Go.

(** ** Package time *)

Module time.

(** A [time.Time]: the instant as Unix nanoseconds, and the offset in
    seconds east of UTC of the location the value carries.  [time.Now()]
    and [time.Unix] return values in the process's local location; a
    DATETIME read back from the store keeps the offset it was written
    with. *)
Record Time : Type := mkTime { unix_nano : Z; zone_offset : Z }.

(** [time.Unix(sec, nsec)] in the local location, whose offset at that
    instant is [local]. *)
Definition Unix (local : Z) (sec nsec : Z) : Time :=
  mkTime (sec * 1000000000 + nsec) local.

(** Days since 1970-01-01 to the civil date (year, month, day) of the
    proleptic Gregorian calendar. *)
Definition civil_from_days (days : Z) : Z * Z * Z :=
  let z := days + 719468 in
  let era := z / 146097 in
  let doe := z - era * 146097 in
  let yoe := (doe - doe / 1460 + doe / 36524 - doe / 146096) / 365 in
  let y := yoe + era * 400 in
  let doy := doe - (365 * yoe + yoe / 4 - yoe / 100) in
  let mp := (5 * doy + 2) / 153 in
  let d := doy - (153 * mp + 2) / 5 + 1 in
  let m := if mp <? 10 then mp + 3 else mp - 9 in
  (if m <=? 2 then y + 1 else y, m, d).

(** A number that orders civil dates as the calendar does. *)
Definition date_key (days : Z) : Z :=
  let '(y, m, d) := civil_from_days days in y * 10000 + m * 100 + d.

(** The month and the day of [days] are in range, and its date is later
    than that of the day before. *)
Definition date_ok (days : Z) : bool :=
  let '(_, m, d) := civil_from_days days in
  (1 <=? m) && (m <=? 12) && (1 <=? d) && (d <=? 31)
  && (date_key (days - 1) <? date_key days).

(** One step of a walk through the calendar: from the day [days], the
    key of the day before and whether every day so far was [date_ok], to
    the same for the next day. *)
Definition date_scan (st : Z * Z * bool) : Z * Z * bool :=
  let '(days, key, ok) := st in
  let '(y, m, d) := civil_from_days days in
  let key' := y * 10000 + m * 100 + d in
  (days + 1, key',
   ok && ((1 <=? m) && (m <=? 12) && (1 <=? d) && (d <=? 31) && (key <? key'))).

(** The zone part of the layout [Z07:00]: [Z] for offset zero, else the
    sign, the hours and the minutes of the offset (Go divides the offset
    by 60 with truncation before it looks at the sign). *)
Definition format_zone (offset : Z) : string :=
  if offset =? 0 then "Z"
  else
    let zone := Z.quot offset 60 in
    let sign := if zone <? 0 then "-" else "+" in
    let zone := Z.abs zone in
    sign ++ Go.pad_int 2 (Z.quot zone 60) ++ ":" ++ Go.pad_int 2 (Z.rem zone 60).

(** [t.Format(time.RFC3339)], layout [2006-01-02T15:04:05Z07:00]. *)
Definition Format_RFC3339 (t : Time) : string :=
  let sec := unix_nano t / 1000000000 + zone_offset t in
  let days := sec / 86400 in
  let rem := sec mod 86400 in
  let '(y, m, d) := civil_from_days days in
  Go.pad_int 4 y ++ "-" ++ Go.pad_int 2 m ++ "-" ++ Go.pad_int 2 d ++ "T"
    ++ Go.pad_int 2 (rem / 3600) ++ ":" ++ Go.pad_int 2 (rem mod 3600 / 60) ++ ":"
    ++ Go.pad_int 2 (rem mod 60) ++ format_zone (zone_offset t).

End time.

(** ** The driver, github.com/mattn/go-sqlite3 *)

Module sqlite3.

(** One decimal digit. *)
Definition digit (u : Z) : ascii := ascii_of_nat (48 + Z.to_nat (u mod 10)).

(** The last [width] decimal digits of [u], most significant first. *)
Fixpoint fixed (width : nat) (u : Z) : string :=
  match width with
  | O => EmptyString
  | S w => fixed w (u / 10) ++ String (digit u) EmptyString
  end.

(** A digit string without its trailing zeros. *)
Fixpoint trim_zeros (s : string) : string :=
  match s with
  | EmptyString => EmptyString
  | String c rest =>
      match trim_zeros rest with
      | EmptyString => if Ascii.eqb c "0" then EmptyString else String c EmptyString
      | r => String c r
      end
  end.

(** The layout [.999999999]: the nanoseconds as a fraction without
    trailing zeros, nothing at all for a whole second. *)
Definition format_nano (nsec : Z) : string :=
  match trim_zeros (fixed 9 nsec) with
  | EmptyString => EmptyString
  | s => String "."%char s
  end.

(** The layout [-07:00]: sign, hours and minutes of the offset (Go
    divides the offset by 60 with truncation before it looks at the
    sign); UTC is [+00:00]. *)
Definition format_zone (offset : Z) : string :=
  let zone := Z.quot offset 60 in
  let sign := if zone <? 0 then "-" else "+" in
  let zone := Z.abs zone in
  sign ++ Go.pad_int 2 (Z.quot zone 60) ++ ":" ++ Go.pad_int 2 (Z.rem zone 60).

(** What the driver stores for a [time.Time] argument: the text
    [t.Format("2006-01-02 15:04:05.999999999-07:00")], the wall clock of
    the value's own zone. *)
Definition timestamp_text (t : time.Time) : string :=
  let sec := time.unix_nano t / 1000000000 + time.zone_offset t in
  let nsec := time.unix_nano t mod 1000000000 in
  let days := sec / 86400 in
  let rem := sec mod 86400 in
  let '(y, m, d) := time.civil_from_days days in
  Go.pad_int 4 y ++ "-" ++ Go.pad_int 2 m ++ "-" ++ Go.pad_int 2 d ++ " "
    ++ Go.pad_int 2 (rem / 3600) ++ ":" ++ Go.pad_int 2 (rem mod 3600 / 60) ++ ":"
    ++ Go.pad_int 2 (rem mod 60) ++ format_nano nsec
    ++ format_zone (time.zone_offset t).

(** The wall-clock year of [t] has the four digits of the layout. *)
Definition year_in_layout (t : time.Time) : bool :=
  let sec := time.unix_nano t / 1000000000 + time.zone_offset t in
  let '(y, _, _) := time.civil_from_days (sec / 86400) in
  (0 <=? y) && (y <=? 9999).

(** Every byte of [s] is a decimal digit. *)
Fixpoint all_digits (s : string) : Prop :=
  match s with
  | EmptyString => True
  | String c rest => (48 <= N_of_ascii c <= 57)%N /\ all_digits rest
  end.

(** The comparison of two TEXT values under the BINARY collation: byte
    by byte, a proper prefix first. *)
Fixpoint text_compare (a b : string) : comparison :=
  match a, b with
  | EmptyString, EmptyString => Eq
  | EmptyString, String _ _ => Lt
  | String _ _, EmptyString => Gt
  | String x a', String y b' =>
      match N.compare (N_of_ascii x) (N_of_ascii y) with
      | Eq => text_compare a' b'
      | c => c
      end
  end.

End sqlite3.

(** ** Package encoding/json *)

Module json.

(** The values the handlers put in their [map[string]interface{}]. *)
Inductive value : Type :=
| Int (z : Z)
| Str (s : string).

(** A JSON string: between double quotes, with the quote, the backslash
    and the control characters escaped; [Marshal] also escapes the
    characters [<], [>] and [&].  Bytes outside ASCII are copied. *)
Definition u00 (n : nat) : string :=
  String Go.bs (String "u"%char (String "0"%char (String "0"%char
    (String (Go.hex_digit (n / 16)) (String (Go.hex_digit (n mod 16)) EmptyString))))).

Definition escape_char (c : ascii) : string :=
  let n := nat_of_ascii c in
  if (n =? 34)%nat then String Go.bs Go.dq
  else if (n =? 92)%nat then String Go.bs (String Go.bs EmptyString)
  else if (n =? 10)%nat then String Go.bs "n"
  else if (n =? 13)%nat then String Go.bs "r"
  else if (n =? 9)%nat then String Go.bs "t"
  else if ((n <? 32) || (n =? 60) || (n =? 62) || (n =? 38))%nat then u00 n
  else String c EmptyString.

Fixpoint escape (s : string) : string :=
  match s with
  | EmptyString => EmptyString
  | String c rest => escape_char c ++ escape rest
  end.

Definition encode_string (s : string) : string := Go.dq ++ escape s ++ Go.dq.

Definition encode_value (v : value) : string :=
  match v with
  | Int z => Go.itoa z
  | Str s => encode_string s
  end.

(** [Marshal] writes the keys of a map in sorted order. *)
Fixpoint insert_key (kv : string * value) (l : list (string * value))
  : list (string * value) :=
  match l with
  | [] => [kv]
  | kv' :: rest =>
      if String.leb (fst kv) (fst kv') then kv :: l else kv' :: insert_key kv rest
  end.

Definition sort_keys (m : list (string * value)) : list (string * value) :=
  fold_right insert_key [] m.

Fixpoint encode_members (l : list (string * value)) : string :=
  match l with
  | [] => EmptyString
  | [kv] => encode_string (fst kv) ++ ":" ++ encode_value (snd kv)
  | kv :: rest =>
      encode_string (fst kv) ++ ":" ++ encode_value (snd kv) ++ "," ++ encode_members rest
  end.

(** [json.Marshal] of a map from strings to integers and strings; it has
    no failing case on such a map. *)
Definition Marshal (m : list (string * value)) : string * option Go.error :=
  ("{" ++ encode_members (sort_keys m) ++ "}", None).

End json.

(** ** Package net/http *)

Module http.

Definition StatusOK : Z := 200.
Definition StatusInternalServerError : Z := 500.

(** What a handler has sent through its [http.ResponseWriter]. *)
Record ResponseWriter : Type := mkResponseWriter {
  Header : list (string * string);
  status : option Z;
  body : string }.

Definition NewResponse : ResponseWriter := mkResponseWriter [] None EmptyString.

(** [w.Header().Set(key, value)]; headers are frozen once the status line
    is out. *)
Definition Header_Set (key val : string) (w : ResponseWriter) : ResponseWriter :=
  match status w with
  | Some _ => w
  | None =>
      mkResponseWriter
        ((key, val) :: filter (fun kv => negb (String.eqb (fst kv) key)) (Header w))
        (status w) (body w)
  end.

(** [w.WriteHeader(code)]; only the first call counts. *)
Definition WriteHeader (code : Z) (w : ResponseWriter) : ResponseWriter :=
  match status w with
  | Some _ => w
  | None => mkResponseWriter (Header w) (Some code) (body w)
  end.

(** [w.Write(bytes)]; sends status 200 first when none was sent. *)
Definition Write (bytes : string) (w : ResponseWriter) : ResponseWriter :=
  let w := WriteHeader StatusOK w in
  mkResponseWriter (Header w) (status w) (body w ++ bytes).

End http.

(** ** The persistent store *)

Module store.

Inductive coltype : Type := INTEGER | DATETIME.

Record column : Type := mkColumn {
  col_name : string;
  col_type : coltype;
  col_not_null : bool }.

(** A table: its column definitions and its rows in insertion order. *)
Record table (R : Type) : Type := mkTable {
  columns : list column;
  rows : list R }.
Arguments mkTable {R} _ _.
Arguments columns {R} _.
Arguments rows {R} _.

(** A row of [counter]. *)
Record Event : Type := mkEvent {
  count : Z;
  created_at : time.Time }.

(** A row of [counter_aggregate]. *)
Record Aggregate : Type := mkAggregate {
  counts : Z;
  agg_created_at : time.Time }.

(** The database file: each table is absent until it is created. *)
Record Database : Type := mkDatabase {
  counter : option (table Event);
  counter_aggregate : option (table Aggregate) }.

Definition empty : Database := mkDatabase None None.

Definition no_such_table (name : string) : Go.error :=
  Go.DriverError ("no such table: " ++ name).

(** [CREATE TABLE IF NOT EXISTS counter (count INTEGER NOT NULL,
    created_at DATETIME NOT NULL)] *)
Definition create_counter (db : Database) : Database :=
  match counter db with
  | Some _ => db
  | None =>
      mkDatabase
        (Some (mkTable [mkColumn "count" INTEGER true;
                        mkColumn "created_at" DATETIME true] []))
        (counter_aggregate db)
  end.

(** [CREATE TABLE IF NOT EXISTS counter_aggregate (counts INTEGER NOT
    NULL, created_at DATETIME NOT NULL)] *)
Definition create_counter_aggregate (db : Database) : Database :=
  match counter_aggregate db with
  | Some _ => db
  | None =>
      mkDatabase
        (counter db)
        (Some (mkTable [mkColumn "counts" INTEGER true;
                        mkColumn "created_at" DATETIME true] []))
  end.

(** [INSERT INTO counter (count, created_at) VALUES (?, ?)] *)
Definition insert_counter (c : Z) (t : time.Time) (db : Database)
  : Go.error + Database :=
  match counter db with
  | None => inl (no_such_table "counter")
  | Some tbl =>
      inr (mkDatabase
             (Some (mkTable (columns tbl) (rows tbl ++ [mkEvent c t])))
             (counter_aggregate db))
  end.

(** [INSERT INTO counter_aggregate (counts, created_at) VALUES (?, ?)] *)
Definition insert_counter_aggregate (c : Z) (t : time.Time) (db : Database)
  : Go.error + Database :=
  match counter_aggregate db with
  | None => inl (no_such_table "counter_aggregate")
  | Some tbl =>
      inr (mkDatabase
             (counter db)
             (Some (mkTable (columns tbl) (rows tbl ++ [mkAggregate c t]))))
  end.

(** [SELECT count FROM counter]: the column, row by row. *)
Definition select_count (db : Database) : Go.error + list Z :=
  match counter db with
  | None => inl (no_such_table "counter")
  | Some tbl => inr (map count (rows tbl))
  end.

(** How two values of a DATETIME column compare: the column holds the
    texts the driver stored, and the engine compares them as texts. *)
Definition datetime_leb (x y : time.Time) : bool :=
  match sqlite3.text_compare (sqlite3.timestamp_text x) (sqlite3.timestamp_text y) with
  | Gt => false
  | _ => true
  end.

(** [ORDER BY created_at DESC]: a stable sort on the stored value,
    greatest first; among rows of one stored value the earlier row stays
    first. *)
Fixpoint insert_desc (a : Aggregate) (l : list Aggregate) : list Aggregate :=
  match l with
  | [] => [a]
  | b :: rest =>
      if datetime_leb (agg_created_at b) (agg_created_at a)
      then a :: l
      else b :: insert_desc a rest
  end.

Definition order_by_created_at_desc (l : list Aggregate) : list Aggregate :=
  fold_right insert_desc [] l.

(** [SELECT counts, created_at FROM counter_aggregate ORDER BY created_at
    DESC LIMIT 1] *)
Definition select_latest (db : Database) : Go.error + list Aggregate :=
  match counter_aggregate db with
  | None => inl (no_such_table "counter_aggregate")
  | Some tbl => inr (firstn 1 (order_by_created_at_desc (rows tbl)))
  end.

End store.

(** ** Package database/sql, and the process around it *)

Module sql.

(** What the process and its store look like between two library calls:
    the committed database, the connections checked out of the pool, the
    transactions that were begun and that the code has neither committed
    nor rolled back, the lines written to the log, and the goroutines
    started with [go d.CreateAggregate()] that have not run yet. *)
Record World : Type := mkWorld {
  db : store.Database;
  conns : nat;
  open_txs : nat;
  logged : list string;
  goroutines : nat }.

(** The outcome of every library call of one operation that the code
    does not decide itself: [None] lets the call through to the store,
    [Some err] makes it return [err].  [exec_err n] is for the [n]-th
    [ExecContext] of the operation, [next_err n] for the [rows.Next()]
    that would deliver row [n], [scan_err n] for the [rows.Scan] of row
    [n].  [now] is the reading of [time.Now()], [epoch_offset] the offset
    of the local zone at the Unix epoch. *)
Record Env : Type := mkEnv {
  conn_err : option Go.error;
  close_err : option Go.error;
  begin_err : option Go.error;
  exec_err : nat -> option Go.error;
  query_err : option Go.error;
  next_err : nat -> option Go.error;
  scan_err : nat -> option Go.error;
  rows_close_err : option Go.error;
  rollback_err : option Go.error;
  commit_err : option Go.error;
  now : time.Time;
  epoch_offset : Z }.

(** A transaction: its private view of the database, and whether it has
    been committed or rolled back. *)
Record Tx : Type := mkTx {
  view : store.Database;
  done : bool }.

(** [d.DB.Conn(ctx)] *)
Definition Conn (env : Env) (w : World) : option Go.error * World :=
  match conn_err env with
  | Some err => (Some err, w)
  | None => (None, mkWorld (db w) (S (conns w)) (open_txs w) (logged w) (goroutines w))
  end.

(** [c.Close()], with [tx] the transaction that was begun on the
    connection, if any.  [Close] waits until nothing holds the
    connection: a transaction that is still open holds it until its
    context ends, when [database/sql] rolls the transaction back.  Then
    the connection leaves the operation, whatever is returned. *)
Definition Close (env : Env) (tx : option Tx) (w : World) : option Go.error * World :=
  let open_txs :=
    match tx with
    | Some t => if done t then open_txs w else pred (open_txs w)
    | None => open_txs w
    end in
  (close_err env,
   mkWorld (db w) (pred (conns w)) open_txs (logged w) (goroutines w)).

(** [c.BeginTx(ctx, &sql.TxOptions{Isolation: sql.LevelSerializable})] *)
Definition BeginTx (env : Env) (w : World) : (Go.error + Tx) * World :=
  match begin_err env with
  | Some err => (inl err, w)
  | None =>
      (inr (mkTx (db w) false),
       mkWorld (db w) (conns w) (S (open_txs w)) (logged w) (goroutines w))
  end.

(** [tx.ExecContext(ctx, stmt, args...)], the [n]-th of the operation. *)
Definition ExecContext (env : Env) (n : nat)
    (stmt : store.Database -> Go.error + store.Database) (tx : Tx)
  : option Go.error * Tx :=
  if done tx then (Some Go.ErrTxDone, tx)
  else
    match exec_err env n with
    | Some err => (Some err, tx)
    | None =>
        match stmt (view tx) with
        | inl err => (Some err, tx)
        | inr v => (None, mkTx v false)
        end
    end.

(** [tx.QueryContext(ctx, query)]: the result set, or an error. *)
Definition QueryContext {A : Type} (env : Env)
    (query : store.Database -> Go.error + list A) (tx : Tx)
  : Go.error + list A :=
  if done tx then inl Go.ErrTxDone
  else
    match query_err env with
    | Some err => inl err
    | None => query (view tx)
    end.

(** [c.QueryRowContext(ctx, query).Scan(...)] on the connection itself:
    it reads the committed database; an empty result is [ErrNoRows]. *)
Definition QueryRowContext_Scan {A : Type} (env : Env)
    (query : store.Database -> Go.error + list A) (w : World)
  : Go.error + A :=
  match query_err env with
  | Some err => inl err
  | None =>
      match query (db w) with
      | inl err => inl err
      | inr [] => inl Go.ErrNoRows
      | inr (row :: _) => inr row
      end
  end.

(** [tx.Rollback()]: ends the transaction whatever is returned. *)
Definition Rollback (env : Env) (tx : Tx) (w : World)
  : option Go.error * Tx * World :=
  if done tx then (Some Go.ErrTxDone, tx, w)
  else
    (rollback_err env, mkTx (view tx) true,
     mkWorld (db w) (conns w) (pred (open_txs w)) (logged w) (goroutines w)).

(** [tx.Commit()]: ends the transaction; the view becomes the committed
    database unless the commit fails. *)
Definition Commit (env : Env) (tx : Tx) (w : World)
  : option Go.error * Tx * World :=
  if done tx then (Some Go.ErrTxDone, tx, w)
  else
    match commit_err env with
    | Some err =>
        (Some err, mkTx (view tx) true,
         mkWorld (db w) (conns w) (pred (open_txs w)) (logged w) (goroutines w))
    | None =>
        (None, mkTx (view tx) true,
         mkWorld (view tx) (conns w) (pred (open_txs w)) (logged w) (goroutines w))
    end.

End sql.

Module log.

(** [log.Println(err)] *)
Definition Println (err : Go.error) (w : sql.World) : sql.World :=
  sql.mkWorld (sql.db w) (sql.conns w) (sql.open_txs w)
    (sql.logged w ++ [Go.Error err]) (sql.goroutines w).

(** [log.Printf(format, n)] with one [%d] verb at the end of the format. *)
Definition Printf_d (prefix : string) (n : Z) (w : sql.World) : sql.World :=
  sql.mkWorld (sql.db w) (sql.conns w) (sql.open_txs w)
    (sql.logged w ++ [prefix ++ Go.itoa n]) (sql.goroutines w).

(** [log.Println(text)] *)
Definition Println_text (text : string) (w : sql.World) : sql.World :=
  sql.mkWorld (sql.db w) (sql.conns w) (sql.open_txs w)
    (sql.logged w ++ [text]) (sql.goroutines w).

End log.

(** ** The operations of [main.go] *)

Module main.

Import sql.

(** The three lines every failing handler path repeats: content type,
    status 500, and the error text as a JSON object. *)
Definition error_body (err : Go.error) : string :=
  "{" ++ Go.dq ++ "error" ++ Go.dq ++ ":" ++ Go.Quote (Go.Error err) ++ "}".

Definition write_error (err : Go.error) (rw : http.ResponseWriter)
  : http.ResponseWriter :=
  http.Write (error_body err)
    (http.WriteHeader http.StatusInternalServerError
       (http.Header_Set "Content-Type" "application/json" rw)).

Definition write_ok (bytes : string) (rw : http.ResponseWriter)
  : http.ResponseWriter :=
  http.Write bytes
    (http.WriteHeader http.StatusOK
       (http.Header_Set "Content-Type" "application/json" rw)).

Definition success_body : string :=
  "{" ++ Go.dq ++ "message" ++ Go.dq ++ ":" ++ Go.dq ++ "success" ++ Go.dq ++ "}".

(** [defer func() { if err := c.Close(); err != nil { log.Println(err) } }()],
    where [tx] is what became of the transaction begun on [c], if one
    was. *)
Definition deferred_close (env : Env) (tx : option Tx) (w : World) : World :=
  match Close env tx w with
  | (Some err, w) => log.Println err w
  | (None, w) => w
  end.

(** The deferred close of [Add], silent on [sql.ErrConnDone]. *)
Definition deferred_close_Add (env : Env) (tx : option Tx) (w : World) : World :=
  match Close env tx w with
  | (Some err, w) => if Go.is_ErrConnDone err then w else log.Println err w
  | (None, w) => w
  end.

(** [defer func() { err := rows.Close(); if err != nil { log.Println(err) } }()] *)
Definition deferred_rows_close (env : Env) (w : World) : World :=
  match rows_close_err env with
  | Some err => log.Println err w
  | None => w
  end.

(** [func (d *Deps) Migrate(ctx context.Context) error] *)
Definition Migrate (env : Env) (w : World) : option Go.error * World :=
  match Conn env w with
  | (Some err, w) => (Some err, w)
  | (None, w) =>
      let '(ret, tx, w) :=
        match BeginTx env w with
        | (inl err, w) => (Some err, None, w)
        | (inr tx, w) =>
            match ExecContext env 0 (fun d => inr (store.create_counter d)) tx with
            | (Some err, tx) =>
                match Rollback env tx w with
                | (Some e, tx, w) => (Some e, Some tx, w)
                | (None, tx, w) => (Some err, Some tx, w)
                end
            | (None, tx) =>
                match ExecContext env 1
                        (fun d => inr (store.create_counter_aggregate d)) tx with
                | (Some err, tx) =>
                    match Rollback env tx w with
                    | (Some e, tx, w) => (Some e, Some tx, w)
                    | (None, tx, w) => (Some err, Some tx, w)
                    end
                | (None, tx) =>
                    match Commit env tx w with
                    | (Some err, tx, w) => (Some err, Some tx, w)
                    | (None, tx, w) => (None, Some tx, w)
                    end
                end
            end
        end in
      (ret, deferred_close env tx w)
  end.

(** [go d.CreateAggregate()] *)
Definition go_CreateAggregate (w : World) : World :=
  mkWorld (db w) (conns w) (open_txs w) (logged w) (S (goroutines w)).

(** [func (d *Deps) Add(w http.ResponseWriter, r *http.Request)] *)
Definition Add (env : Env) (rw : http.ResponseWriter) (w : World)
  : http.ResponseWriter * World :=
  match Conn env w with
  | (Some err, w) => (write_error err rw, w)
  | (None, w) =>
      let '(rw, tx, w) :=
        match BeginTx env w with
        | (inl err, w) => (write_error err rw, None, w)
        | (inr tx, w) =>
            match ExecContext env 0 (store.insert_counter 1 (now env)) tx with
            | (Some err, tx) =>
                match Rollback env tx w with
                | (Some e, tx, w) => (write_error err rw, Some tx, w)
                | (None, tx, w) => (write_error err rw, Some tx, w)
                end
            | (None, tx) =>
                match Commit env tx w with
                | (Some err, tx, w) =>
                    match Rollback env tx w with
                    | (Some e, tx, w) => (write_error err rw, Some tx, w)
                    | (None, tx, w) => (write_error err rw, Some tx, w)
                    end
                | (None, tx, w) =>
                    let w := go_CreateAggregate w in
                    (write_ok success_body rw, Some tx, w)
                end
            end
        end in
      (rw, deferred_close_Add env tx w)
  end.

(** [func (d *Deps) List(w http.ResponseWriter, r *http.Request)] *)
Definition List (env : Env) (rw : http.ResponseWriter) (w : World)
  : http.ResponseWriter * World :=
  match Conn env w with
  | (Some err, w) => (write_error err rw, w)
  | (None, w) =>
      let rw :=
        match QueryRowContext_Scan env store.select_latest w with
        | inl err =>
            if Go.is_ErrNoRows err then
              match json.Marshal
                      [("counter", json.Int 0);
                       ("lastDate",
                        json.Str (time.Format_RFC3339
                                    (time.Unix (epoch_offset env) 0 0)))] with
              | (_, Some err) => write_error err rw
              | (responseBody, None) => write_ok responseBody rw
              end
            else write_error err rw
        | inr row =>
            let counts := store.counts row in
            let lastDate := store.agg_created_at row in
            match json.Marshal
                    [("counter", json.Int counts);
                     ("lastDate", json.Str (time.Format_RFC3339 lastDate))] with
            | (_, Some err) => write_error err rw
            | (responseBody, None) => write_ok responseBody rw
            end
        end in
      (rw, deferred_close env None w)
  end.

(** The loop [for rows.Next() { rows.Scan(&count); counts += count }]
    over the rows still to come, [n] of them already delivered.  When
    [rows.Next()] returns false the loop is over, whether the rows are
    exhausted or the iteration failed: the code never reads
    [rows.Err()]. *)
Fixpoint scan_rows (env : Env) (n : nat) (rows : list Z) (counts : Z)
  : Go.error + Z :=
  match rows with
  | [] => inr counts
  | count :: rest =>
      match next_err env n with
      | Some _ => inr counts
      | None =>
          match scan_err env n with
          | Some err => inl err
          | None => scan_rows env (S n) rest (Go.int_add counts count)
          end
      end
  end.

(** [func (d *Deps) CreateAggregate()] *)
Definition CreateAggregate (env : Env) (w : World) : World :=
  match Conn env w with
  | (Some err, w) => log.Println err w
  | (None, w) =>
      let '(tx, w) :=
        match BeginTx env w with
        | (inl err, w) => (None, log.Println err w)
        | (inr tx, w) =>
            match QueryContext env store.select_count tx with
            | inl err => (Some tx, log.Println err w)
            | inr rows =>
                let '(tx, w) :=
                  match scan_rows env 0 rows 0 with
                  | inl err => (tx, log.Println err w)
                  | inr counts =>
                      match ExecContext env 0
                              (store.insert_counter_aggregate counts (now env)) tx with
                      | (Some err, tx) =>
                          match Rollback env tx w with
                          | (Some e, tx, w) => (tx, log.Println err w)
                          | (None, tx, w) => (tx, log.Println err w)
                          end
                      | (None, tx) =>
                          match Commit env tx w with
                          | (Some err, tx, w) => (tx, log.Println err w)
                          | (None, tx, w) =>
                              (tx, log.Printf_d "Aggregate created, with counts: "
                                     counts w)
                          end
                      end
                  end in
                (Some tx, deferred_rows_close env w)
            end
        end in
      deferred_close env tx w
  end.

(** [v, ok := os.LookupEnv(key); if !ok { v = fallback }]: the fallback
    is for a variable that is not set; one that is set to the empty string
    keeps its empty value. *)
Definition LookupEnv_or (environ : string -> option string) (key fallback : string)
  : string :=
  match environ key with
  | Some v => v
  | None => fallback
  end.

(** How [main] goes on after its start: [log.Fatalln] ends the process,
    or the server is set up on [Addr] over the database at [dbUrl]. *)
Inductive Started : Type :=
| Fatal (w : World)
| Listening (Addr dbUrl : string) (w : World).

(** [func main()] from its first line to the [http.Server] it builds:
    the three variables of the environment, [sql.Open] (whose outcome is
    [open_err]), [Migrate], and the address of the server.  [w] is the
    process at its start, over the database file as it is found. *)
Definition main (environ : string -> option string) (open_err : option Go.error)
    (env : Env) (w : World) : Started :=
  let w := log.Println_text "Server is starting up" w in
  let port := LookupEnv_or environ "PORT" "80" in
  let host := LookupEnv_or environ "HOST" "0.0.0.0" in
  let dbUrl := LookupEnv_or environ "DATABASE_URL" "./db.sqlite" in
  match open_err with
  | Some err => Fatal (log.Println err w)
  | None =>
      let w := log.Println_text "Migrating database in progress" w in
      match Migrate env w with
      | (Some err, w) => Fatal (log.Println err w)
      | (None, w) =>
          let w := log.Println_text "Migrating database completed" w in
          Listening (host ++ ":" ++ port) dbUrl w
      end
  end.

End main.

(** ** Runs of the service *)

Module service.

Import sql.

(** An environment in which no library call fails. *)
Definition quiet (now : time.Time) (epoch_offset : Z) : Env :=
  mkEnv None None None (fun _ => None) None (fun _ => None) (fun _ => None)
        None None None now epoch_offset.

(** No step of the operation is made to fail by its environment.  The
    closes of connections and rows are left out: the code only logs what
    they return. *)
Definition runs_clean (env : Env) : Prop :=
  conn_err env = None /\ begin_err env = None /\
  (forall n, exec_err env n = None) /\ query_err env = None /\
  (forall n, next_err env n = None) /\ (forall n, scan_err env n = None) /\
  commit_err env = None.

(** One of the steps of [Add] returns [err]: taking a connection,
    beginning the transaction, the insert (refused by the driver, or by
    the store), or the commit. *)
Definition Add_step_error (env : Env) (w : World) (err : Go.error) : Prop :=
  conn_err env = Some err \/ begin_err env = Some err \/
  exec_err env 0%nat = Some err \/
  store.insert_counter 1 (now env) (db w) = inl err \/
  commit_err env = Some err.

(** Every step of [Add] up to and including the commit goes through. *)
Definition Add_commits (env : Env) (w : World) : Prop :=
  conn_err env = None /\ begin_err env = None /\
  exec_err env 0%nat = None /\
  (exists d, store.insert_counter 1 (now env) (db w) = inr d) /\
  commit_err env = None.

(** One of the steps of [CreateAggregate] returns [err] to the code:
    taking a connection, beginning the transaction, the query, the
    [Scan] of a row, the insert, or the commit. *)
Definition CreateAggregate_step_error (env : Env) (w : World) (err : Go.error)
  : Prop :=
  conn_err env = Some err \/ begin_err env = Some err \/
  QueryContext env store.select_count (mkTx (db w) false) = inl err \/
  (exists rows,
      QueryContext env store.select_count (mkTx (db w) false) = inr rows /\
      main.scan_rows env 0 rows 0 = inl err) \/
  exec_err env 0%nat = Some err \/
  (exists counts,
      store.insert_counter_aggregate counts (now env) (db w) = inl err) \/
  commit_err env = Some err.

(** The counter a 200 of [List] carries for a database: the [counts] of
    the first row of the query, 0 when there is none. *)
Definition reported (d : store.Database) : Z :=
  match store.select_latest d with
  | inr (row :: _) => store.counts row
  | _ => 0
  end.

(** The store as the code keeps it: both tables exist, every event
    counts 1, and no snapshot counts more than there are events. *)
Definition consistent (d : store.Database) : Prop :=
  exists te ta,
    store.counter d = Some te /\ store.counter_aggregate d = Some ta /\
    Forall (fun e => store.count e = 1) (store.rows te) /\
    Forall (fun a => 0 <= store.counts a <= Z.of_nat (List.length (store.rows te)))
           (store.rows ta).

Definition events (d : store.Database) : nat :=
  match store.counter d with
  | Some te => List.length (store.rows te)
  | None => 0%nat
  end.

(** *** Scenarios *)

(** The clock [s] seconds after 2023-11-14T22:13:20Z, in UTC. *)
Definition clock (s : Z) : time.Time :=
  time.mkTime ((1700000000 + s) * 1000000000) 0.

Definition locked : Go.error := Go.DriverError "database is locked".


(** [rows.Next()] fails instead of delivering row [k]. *)
Definition iteration_fails (k : nat) (now : time.Time) : Env :=
  mkEnv None None None (fun _ => None) None
        (fun n => if Nat.eqb n k then Some locked else None)
        (fun _ => None) None None None now 0.

(** [tx.QueryContext] fails. *)
Definition query_fails (now : time.Time) : Env :=
  mkEnv None None None (fun _ => None) (Some locked)
        (fun _ => None) (fun _ => None) None None None now 0.

(** [rows.Scan] fails on row [k]. *)
Definition scan_fails (k : nat) (now : time.Time) : Env :=
  mkEnv None None None (fun _ => None) None (fun _ => None)
        (fun n => if Nat.eqb n k then Some locked else None)
        None None None now 0.

(** A process just started on a new database file, before [Migrate]. *)
Definition boot : World := mkWorld store.empty 0 0 [] 0.

(** [POST /api/add], once per environment, one request after the other. *)
Fixpoint record_events (envs : list Env) (w : World)
  : list http.ResponseWriter * World :=
  match envs with
  | [] => ([], w)
  | env :: rest =>
      let '(rw, w) := main.Add env http.NewResponse w in
      let '(rws, w) := record_events rest w in
      (rw :: rws, w)
  end.

(** What the process is asked to do next: serve a request, or let one of
    the started goroutines run. *)
Inductive Call : Type :=
| PostAdd
| GetList
| RunCreateAggregate.

(** One call, run to its end; requests give a response. *)
Definition serve (c : Call) (env : Env) (w : World)
  : option http.ResponseWriter * World :=
  match c with
  | PostAdd => let '(rw, w) := main.Add env http.NewResponse w in (Some rw, w)
  | GetList => let '(rw, w) := main.List env http.NewResponse w in (Some rw, w)
  | RunCreateAggregate =>
      (None,
       let w := main.CreateAggregate env w in
       mkWorld (db w) (conns w) (open_txs w) (logged w) (pred (goroutines w)))
  end.

(** A schedule of calls, each a transaction of its own, and the
    responses it produces in order. *)
Fixpoint run (sched : list (Call * Env)) (w : World)
  : list http.ResponseWriter * World :=
  match sched with
  | [] => ([], w)
  | (c, env) :: rest =>
      let '(r, w) := serve c env w in
      let '(rs, w) := run rest w in
      (match r with Some rw => rw :: rs | None => rs end, w)
  end.

(** The process after a clean [Migrate] of a new database file. *)
Definition migrated : World := snd (main.Migrate (quiet (clock 0) 0) boot).

(** *** The first error of a request *)

(** The error of the first step of [Add] that fails, in the order of the
    code: connection, transaction, insert, commit. *)
Definition Add_first_error (env : Env) (w : World) : option Go.error :=
  match conn_err env with
  | Some err => Some err
  | None =>
      match begin_err env with
      | Some err => Some err
      | None =>
          match exec_err env 0%nat with
          | Some err => Some err
          | None =>
              match store.insert_counter 1 (now env) (db w) with
              | inl err => Some err
              | inr _ => commit_err env
              end
          end
      end
  end.

(** The error [List] answers with: that of the connection, or that of the
    query unless it is [sql.ErrNoRows]. *)
Definition List_error (env : Env) (w : World) : option Go.error :=
  match conn_err env with
  | Some err => Some err
  | None =>
      match QueryRowContext_Scan env store.select_latest w with
      | inl err => if Go.is_ErrNoRows err then None else Some err
      | inr _ => None
      end
  end.

(** *** What a schedule does to the store *)

(** The rows of a table, none when the table does not exist. *)
Definition rows_of {R : Type} (t : option (store.table R)) : list R :=
  match t with
  | Some tbl => store.rows tbl
  | None => []
  end.

(** [d'] is [d] with rows appended: a table of [d] is in [d'] with the
    same columns and its rows first, in their order. *)
Definition extends (d d' : store.Database) : Prop :=
  (forall te, store.counter d = Some te ->
     exists more,
       store.counter d' =
         Some (store.mkTable (store.columns te) (store.rows te ++ more))) /\
  (forall ta, store.counter_aggregate d = Some ta ->
     exists more,
       store.counter_aggregate d' =
         Some (store.mkTable (store.columns ta) (store.rows ta ++ more))).

(** A schedule with the response of each of its calls. *)
Fixpoint trace (sched : list (Call * Env)) (w : World)
  : list (Call * option http.ResponseWriter) * World :=
  match sched with
  | [] => ([], w)
  | (c, env) :: rest =>
      let '(r, w) := serve c env w in
      let '(tr, w) := trace rest w in
      ((c, r) :: tr, w)
  end.

(** A [POST /api/add] that was answered 200. *)
Definition add_answered_200 (cr : Call * option http.ResponseWriter) : bool :=
  match cr with
  | (PostAdd, Some rw) =>
      match http.status rw with
      | Some code => code =? http.StatusOK
      | None => false
      end
  | _ => false
  end.

(** The sum of the [count] column as a number, without wrap-around. *)
Definition sum_counts (l : list store.Event) : Z :=
  fold_right Z.add 0 (map store.count l).

End service.

Import sql service.

(** ** Checks over a range of numbers *)

(** [p] holds on every number from [lo] up to [lo + n - 1]. *)
Fixpoint all_in (p : Z -> bool) (lo : Z) (n : positive) : bool :=
  match n with
  | xH => p lo
  | xO n' => all_in p lo n' && all_in p (lo + Zpos n') n'
  | xI n' => p lo && all_in p (lo + 1) n' && all_in p (lo + 1 + Zpos n') n'
  end.

(** * Properties *)

(** ** Arithmetic of [int] *)

Lemma wrap_int_small (z : Z) :
  Go.int_min <= z <= Go.int_max -> Go.wrap_int z = z.
Proof.
  unfold Go.int_min, Go.int_max, Go.wrap_int. intros H.
  rewrite Z.mod_small; lia.
Qed.

Lemma int_add_small (a b : Z) :
  Go.int_min <= a + b <= Go.int_max -> Go.int_add a b = a + b.
Proof. apply wrap_int_small. Qed.

(** ** Strings *)

Lemma string_app_assoc (a b c : string) : (a ++ b) ++ c = a ++ (b ++ c).
Proof. induction a as [|x a IH]; cbn; congruence. Qed.

(** ** The write path *)

Section WritePath.

Variable env : Env.
Variable w : World.

(** [Add] has two outcomes: a 500 that carries the error of a failed
    step and leaves the world as it was but for the log, or a 200 after
    one more row in [counter] and one more goroutine. *)
Lemma Add_cases :
  let r := main.Add env http.NewResponse w in
  (http.status (fst r) = Some 500 /\
   (exists err, Add_step_error env w err /\ http.body (fst r) = main.error_body err) /\
   db (snd r) = db w /\ open_txs (snd r) = open_txs w /\
   conns (snd r) = conns w /\ goroutines (snd r) = goroutines w)
  \/
  (http.status (fst r) = Some 200 /\
   http.body (fst r) = main.success_body /\
   (exists tbl, store.counter (db w) = Some tbl /\
      db (snd r) =
        store.mkDatabase
          (Some (store.mkTable (store.columns tbl)
                   (store.rows tbl ++ [store.mkEvent 1 (now env)])))
          (store.counter_aggregate (db w))) /\
   open_txs (snd r) = open_txs w /\ conns (snd r) = conns w /\
   goroutines (snd r) = S (goroutines w) /\
   conn_err env = None /\ begin_err env = None /\
   exec_err env 0%nat = None /\ commit_err env = None).
Proof.
  unfold Add_step_error, main.Add, main.deferred_close_Add, Conn, BeginTx,
    ExecContext, Commit, Rollback, Close, store.insert_counter,
    main.go_CreateAggregate.
  destruct w as [d c o l g]; cbn [db conns open_txs logged goroutines].
  destruct (conn_err env) as [e1|] eqn:E1.
  { left. cbn. repeat split; eauto. }
  destruct (begin_err env) as [e2|] eqn:E2.
  { left. destruct (close_err env) as [ec|]; [destruct (Go.is_ErrConnDone ec)|];
      cbn; repeat split; eauto 7. }
  cbn [done view db conns open_txs logged goroutines].
  destruct (exec_err env 0%nat) as [e3|] eqn:E3.
  { left. destruct (rollback_err env);
      (destruct (close_err env) as [ec|]; [destruct (Go.is_ErrConnDone ec)|]);
      cbn; repeat split; eauto 7. }
  destruct (store.counter d) as [tbl|] eqn:E4.
  2:{ left. destruct (rollback_err env);
      (destruct (close_err env) as [ec|]; [destruct (Go.is_ErrConnDone ec)|]);
      cbn; repeat split; eauto 8. }
  cbn [done view db conns open_txs logged goroutines].
  destruct (commit_err env) as [e5|] eqn:E5.
  { left. cbn [done view db conns open_txs logged goroutines].
    destruct (close_err env) as [ec|]; [destruct (Go.is_ErrConnDone ec)|];
      cbn; repeat split; eauto 8. }
  right.
  destruct (close_err env) as [ec|]; [destruct (Go.is_ErrConnDone ec)|];
    cbn; repeat split; eauto.
Qed.

End WritePath.

(** Plain text is quoted as it is. *)
Lemma quote_body_plain (s : string) :
  Go.is_plain s = true -> Go.quote_body s = s.
Proof.
  induction s as [|c s IH]; [reflexivity|].
  cbn [Go.is_plain Go.quote_body]. intros H.
  apply andb_prop in H. destruct H as [H Hs].
  apply andb_prop in H. destruct H as [H H92].
  apply andb_prop in H. destruct H as [H H34].
  apply andb_prop in H. destruct H as [H32 H127].
  apply Nat.leb_le in H32. apply Nat.ltb_lt in H127.
  apply negb_true_iff in H34, H92.
  rewrite (IH Hs). unfold Go.quote_char. rewrite H34, H92.
  replace (nat_of_ascii c =? 7)%nat with false by (symmetry; apply Nat.eqb_neq; lia).
  replace (nat_of_ascii c =? 8)%nat with false by (symmetry; apply Nat.eqb_neq; lia).
  replace (nat_of_ascii c =? 12)%nat with false by (symmetry; apply Nat.eqb_neq; lia).
  replace (nat_of_ascii c =? 10)%nat with false by (symmetry; apply Nat.eqb_neq; lia).
  replace (nat_of_ascii c =? 13)%nat with false by (symmetry; apply Nat.eqb_neq; lia).
  replace (nat_of_ascii c =? 9)%nat with false by (symmetry; apply Nat.eqb_neq; lia).
  replace (nat_of_ascii c =? 11)%nat with false by (symmetry; apply Nat.eqb_neq; lia).
  replace (nat_of_ascii c <? 32)%nat with false by (symmetry; apply Nat.ltb_ge; lia).
  replace (nat_of_ascii c =? 127)%nat with false by (symmetry; apply Nat.eqb_neq; lia).
  reflexivity.
Qed.

(** The response written for an error, spelled out: one header, status
    500, and the error text in a JSON object; for plain text the text
    itself between quotes. *)
Lemma write_error_spelled (err : Go.error) :
  main.write_error err http.NewResponse =
    http.mkResponseWriter [("Content-Type", "application/json")] (Some 500)
      ("{" ++ Go.dq ++ "error" ++ Go.dq ++ ":" ++ Go.Quote (Go.Error err) ++ "}").
Proof. reflexivity. Qed.

Lemma write_error_plain (err : Go.error) :
  Go.is_plain (Go.Error err) = true ->
  main.write_error err http.NewResponse =
    http.mkResponseWriter [("Content-Type", "application/json")] (Some 500)
      ("{" ++ Go.dq ++ "error" ++ Go.dq ++ ":"
         ++ Go.dq ++ Go.Error err ++ Go.dq ++ "}").
Proof.
  intros H. rewrite write_error_spelled. unfold Go.Quote.
  rewrite (quote_body_plain _ H). do 2 f_equal.
  cbn [String.append]. rewrite !string_app_assoc. reflexivity.
Qed.

(** When a step of [Add] fails, the first one that does decides the
    response, and the world is what it was but for the log. *)
Lemma Add_first_error_response (env : Env) (w : World) (err : Go.error) :
  Add_first_error env w = Some err ->
  let r := main.Add env http.NewResponse w in
  fst r = main.write_error err http.NewResponse /\
  db (snd r) = db w /\ open_txs (snd r) = open_txs w /\
  conns (snd r) = conns w /\ goroutines (snd r) = goroutines w.
Proof.
  unfold Add_first_error, main.Add, main.deferred_close_Add, Conn, BeginTx,
    ExecContext, Commit, Rollback, Close, main.go_CreateAggregate, log.Println.
  destruct w as [d c o l g]; cbn [db conns open_txs logged goroutines].
  destruct (conn_err env) as [e1|].
  { intros [= ->]. repeat split. }
  destruct (begin_err env) as [e2|].
  { intros [= ->].
    destruct (close_err env) as [ec|]; [destruct (Go.is_ErrConnDone ec)|];
      repeat split. }
  cbn [done view db conns open_txs logged goroutines].
  destruct (exec_err env 0%nat) as [e3|].
  { intros [= ->].
    destruct (rollback_err env);
      (destruct (close_err env) as [ec|]; [destruct (Go.is_ErrConnDone ec)|]);
      repeat split. }
  destruct (store.insert_counter 1 (now env) d) as [e4|d'].
  { intros [= ->].
    destruct (rollback_err env);
      (destruct (close_err env) as [ec|]; [destruct (Go.is_ErrConnDone ec)|]);
      repeat split. }
  cbn [done view db conns open_txs logged goroutines].
  destruct (commit_err env) as [e5|]; [|discriminate].
  intros [= ->].
  destruct (close_err env) as [ec|]; [destruct (Go.is_ErrConnDone ec)|];
    repeat split.
Qed.

Lemma Add_step_error_first (env : Env) (w : World) :
  (exists err, Add_step_error env w err) ->
  exists err, Add_first_error env w = Some err /\ Add_step_error env w err.
Proof.
  unfold Add_step_error, Add_first_error. intros [err H].
  destruct (conn_err env) as [e1|]; [eauto|].
  destruct (begin_err env) as [e2|]; [eauto|].
  destruct (exec_err env 0%nat) as [e3|]; [eauto 6|].
  destruct (store.insert_counter 1 (now env) (db w)) as [e4|d]; [eauto 7|].
  destruct (commit_err env) as [e5|]; [eauto 8|].
  destruct H as [H | [H | [H | [H | H]]]]; discriminate.
Qed.

(** C4. When a step of [Add] fails (taking the connection, beginning the
    transaction, the insert or the commit), the response is a 500 with
    the header [Content-Type: application/json] whose body is the JSON
    object [{"error": ...}] holding the quoted text of the first error
    met; the store is what it was: no row has been added to [counter],
    the transaction is no longer open, the connection is given back and
    no aggregation is started. *)
Theorem Add_failure_is_500_and_writes_nothing (env : Env) (w : World) :
  (exists err, Add_step_error env w err) ->
  let r := main.Add env http.NewResponse w in
  http.status (fst r) = Some 500 /\
  http.Header (fst r) = [("Content-Type", "application/json")] /\
  (exists err,
     Add_first_error env w = Some err /\ Add_step_error env w err /\
     (Go.is_ascii (Go.Error err) = true ->
      http.body (fst r) =
        "{" ++ Go.dq ++ "error" ++ Go.dq ++ ":" ++ Go.Quote (Go.Error err) ++ "}") /\
     (Go.is_plain (Go.Error err) = true ->
      http.body (fst r) =
        "{" ++ Go.dq ++ "error" ++ Go.dq ++ ":"
          ++ Go.dq ++ Go.Error err ++ Go.dq ++ "}")) /\
  db (snd r) = db w /\
  open_txs (snd r) = open_txs w /\
  conns (snd r) = conns w /\
  goroutines (snd r) = goroutines w.
Proof.
  intros Hfail r. subst r.
  destruct (Add_step_error_first env w Hfail) as (err & Hfirst & Hstep).
  destruct (Add_first_error_response env w err Hfirst) as (Hr & Hdb & Ht & Hc & Hg).
  rewrite Hr. split; [reflexivity|]. split; [reflexivity|].
  split; [|auto].
  exists err. split; [exact Hfirst|]. split; [exact Hstep|]. split.
  - intros _. rewrite write_error_spelled. reflexivity.
  - intros Hplain. rewrite (write_error_plain err Hplain). reflexivity.
Qed.

Lemma Add_failure_is_500_and_writes_nothing_witness :
  let env := mkEnv None None None (fun _ => None) None (fun _ => None)
               (fun _ => None) None None
               (Some (Go.DriverError "database is locked"))
               (clock 2) 0 in
  let w := snd (run [(PostAdd, quiet (clock 1) 0)] migrated) in
  let r := main.Add env http.NewResponse w in
  option_map store.rows (store.counter (db w)) = Some [store.mkEvent 1 (clock 1)] /\
  http.status (fst r) = Some 500 /\
  http.body (fst r) =
    "{" ++ Go.dq ++ "error" ++ Go.dq ++ ":"
      ++ Go.dq ++ "database is locked" ++ Go.dq ++ "}" /\
  db (snd r) = db w.
Proof.
  intros env w r.
  assert (H : exists err, Add_step_error env w err).
  { exists (Go.DriverError "database is locked"). unfold Add_step_error.
    do 4 right. reflexivity. }
  destruct (Add_failure_is_500_and_writes_nothing env w H)
    as (H1 & _ & (err & Hfirst & _ & _ & Hplain) & H3 & _).
  split; [reflexivity|]. split; [exact H1|]. split; [|exact H3].
  assert (Herr : err = Go.DriverError "database is locked").
  { vm_compute in Hfirst. injection Hfirst as <-. reflexivity. }
  subst err. exact (Hplain eq_refl).
Defined.

(** C8. When the commit of [Add] goes through, one aggregation is started
    as a goroutine and the response is 200 with the body
    [{"message":"success"}]; the response is complete before the
    aggregation runs and is the same whatever the aggregation meets. *)
Theorem Add_success_starts_aggregation_and_answers_200
    (env agg_env : Env) (w : World) :
  Add_commits env w ->
  let r := main.Add env http.NewResponse w in
  http.status (fst r) = Some http.StatusOK /\
  http.body (fst r) =
    "{" ++ Go.dq ++ "message" ++ Go.dq ++ ":" ++ Go.dq ++ "success" ++ Go.dq ++ "}" /\
  goroutines (snd r) = S (goroutines w) /\
  fst (run [(PostAdd, env); (RunCreateAggregate, agg_env)] w) = [fst r].
Proof.
  intros (Hc & Hb & He & (d & Hd) & Hm) r.
  assert (Hrun : fst (run [(PostAdd, env); (RunCreateAggregate, agg_env)] w) = [fst r]).
  { subst r. cbn. destruct (main.Add env http.NewResponse w). reflexivity. }
  subst r.
  destruct (Add_cases env w) as [H | H].
  - exfalso. destruct H as (_ & (err & Herr & _) & _).
    unfold Add_step_error in Herr.
    destruct Herr as [H | [H | [H | [H | H]]]]; congruence.
  - destruct H as (Hs & Hbody & _ & _ & _ & Hg & _).
    repeat split; assumption.
Qed.

Lemma Add_success_starts_aggregation_and_answers_200_witness :
  let env := quiet (time.mkTime 1700000000000000000 25200) 25200 in
  let agg_env := mkEnv None None None (fun _ => None)
                   (Some (Go.DriverError "database is locked"))
                   (fun _ => None) (fun _ => None) None None None
                   (time.mkTime 1700000001000000000 25200) 25200 in
  let w := snd (main.Migrate env boot) in
  fst (run [(PostAdd, env); (RunCreateAggregate, agg_env)] w)
  = [http.mkResponseWriter [("Content-Type", "application/json")] (Some 200)
       main.success_body].
Proof.
  intros env agg_env w.
  assert (H : Add_commits env w).
  { unfold Add_commits. repeat split; try reflexivity. eexists. reflexivity. }
  destruct (Add_success_starts_aggregation_and_answers_200 env agg_env w H)
    as (_ & _ & _ & H4).
  rewrite H4. reflexivity.
Defined.

(** ** Aggregation *)

(** With no failing call, the loop of [CreateAggregate] adds up every
    row. *)
Lemma scan_rows_clean (env : Env) :
  (forall n, next_err env n = None) -> (forall n, scan_err env n = None) ->
  forall rows n counts,
    main.scan_rows env n rows counts = inr (fold_left Go.int_add rows counts).
Proof.
  intros Hn Hs rows. induction rows as [|count rest IH]; intros n counts.
  - reflexivity.
  - cbn. rewrite Hn, Hs. apply IH.
Qed.

(** Rows of count 1 add up to their number, short of the overflow of
    [int]. *)
Lemma sum_of_ones (A : Type) (f : A -> store.Event) (l : list A) :
  (forall a, store.count (f a) = 1) ->
  forall counts,
    0 <= counts -> counts + Z.of_nat (List.length l) <= Go.int_max ->
    fold_left Go.int_add (map store.count (map f l)) counts
    = counts + Z.of_nat (List.length l).
Proof.
  intros Hf. induction l as [|a l IH]; intros counts H0 Hmax.
  - cbn. lia.
  - cbn [map fold_left List.length] in *. rewrite Hf.
    rewrite int_add_small by (unfold Go.int_min, Go.int_max in *; lia).
    rewrite IH by lia. lia.
Qed.

(** A clean run of [CreateAggregate] on a store that has both tables
    appends one row to [counter_aggregate]: the sum of the [count] column
    at the reading of the clock, and leaves [counter] alone. *)
Lemma CreateAggregate_clean (env : Env) (w : World) te ta :
  runs_clean env ->
  store.counter (db w) = Some te ->
  store.counter_aggregate (db w) = Some ta ->
  db (main.CreateAggregate env w) =
    store.mkDatabase (Some te)
      (Some (store.mkTable (store.columns ta)
               (store.rows ta ++
                  [store.mkAggregate
                     (fold_left Go.int_add (map store.count (store.rows te)) 0)
                     (now env)]))).
Proof.
  intros (Hc & Hb & He & Hq & Hn & Hs & Hm) Hte Hta.
  unfold main.CreateAggregate, main.deferred_close, main.deferred_rows_close,
    Conn, BeginTx, QueryContext, ExecContext, Commit, Close,
    store.select_count, store.insert_counter_aggregate.
  rewrite Hc, Hb. cbn [done view db conns open_txs logged goroutines].
  rewrite Hq, Hte, (scan_rows_clean env Hn Hs), He, Hta.
  cbn [done view db conns open_txs logged goroutines]. rewrite Hm.
  destruct (rows_close_err env), (close_err env); reflexivity.
Qed.

(** [N] successful [Add]s append [N] rows of count 1 to [counter] and
    touch nothing else in the store. *)
Lemma record_events_ok (envs : list Env) :
  forall w te,
    store.counter (db w) = Some te ->
    Forall (fun rw => http.status rw = Some http.StatusOK) (fst (record_events envs w)) ->
    db (snd (record_events envs w)) =
      store.mkDatabase
        (Some (store.mkTable (store.columns te)
                 (store.rows te ++ map (fun e => store.mkEvent 1 (now e)) envs)))
        (store.counter_aggregate (db w)).
Proof.
  induction envs as [|env rest IH]; intros w te Hte Hall.
  - cbn. rewrite app_nil_r. destruct (db w) as [c a]; cbn in *; subst.
    destruct te; reflexivity.
  - cbn [record_events] in *.
    pose proof (Add_cases env w) as Hcases. cbn zeta in Hcases.
    destruct (main.Add env http.NewResponse w) as [rw w1]. cbn [fst snd] in Hcases.
    specialize (IH w1).
    destruct (record_events rest w1) as [rws w2]. cbn [fst snd] in *.
    inversion Hall as [|? ? Hrw Hrest]; subst.
    destruct Hcases as [(H500 & _) | (_ & _ & (tbl & Htbl & Hdb) & _)].
    + rewrite Hrw in H500. discriminate.
    + rewrite Hte in Htbl. injection Htbl as <-.
      rewrite (IH (store.mkTable (store.columns te)
                     (store.rows te ++ [store.mkEvent 1 (now env)]))).
      * rewrite Hdb. cbn. rewrite <- app_assoc. reflexivity.
      * rewrite Hdb. reflexivity.
      * exact Hrest.
Qed.

(** C1. On a store whose [counter] table is empty, after [N] successful
    [Add] requests a clean run of [CreateAggregate] appends to
    [counter_aggregate] one row whose [counts] is [N], stamped with the
    reading of the clock (for [N] within the range of [int]). *)
Theorem aggregate_after_N_events_counts_N
    (envs : list Env) (agg_env : Env) (w : World) te ta :
  store.counter (db w) = Some te ->
  store.rows te = [] ->
  store.counter_aggregate (db w) = Some ta ->
  Forall (fun rw => http.status rw = Some http.StatusOK) (fst (record_events envs w)) ->
  runs_clean agg_env ->
  Z.of_nat (List.length envs) <= Go.int_max ->
  store.counter_aggregate
    (db (main.CreateAggregate agg_env (snd (record_events envs w))))
  = Some (store.mkTable (store.columns ta)
            (store.rows ta ++
               [store.mkAggregate (Z.of_nat (List.length envs)) (now agg_env)])).
Proof.
  intros Hte Hempty Hta Hall Hclean Hmax.
  pose proof (record_events_ok envs w te Hte Hall) as Hdb.
  rewrite Hempty in Hdb. cbn [app] in Hdb.
  erewrite CreateAggregate_clean; [ | exact Hclean | rewrite Hdb; reflexivity
                                   | rewrite Hdb; cbn; exact Hta ].
  cbn [store.counter_aggregate store.rows].
  rewrite (sum_of_ones _ (fun e => store.mkEvent 1 (now e))); [ | reflexivity | lia | lia].
  reflexivity.
Qed.

Lemma aggregate_after_N_events_counts_N_witness :
  let e1 := quiet (time.mkTime 1700000000000000000 25200) 25200 in
  let e2 := quiet (time.mkTime 1700000001000000000 25200) 25200 in
  let e3 := quiet (time.mkTime 1700000002000000000 25200) 25200 in
  let agg := quiet (time.mkTime 1700000003000000000 25200) 25200 in
  let w := snd (main.Migrate e1 boot) in
  option_map store.rows
    (store.counter_aggregate
       (db (main.CreateAggregate agg (snd (record_events [e1; e2; e3] w)))))
  = Some [store.mkAggregate 3 (time.mkTime 1700000003000000000 25200)].
Proof.
  intros e1 e2 e3 agg w.
  rewrite (aggregate_after_N_events_counts_N [e1; e2; e3] agg w
             (store.mkTable [store.mkColumn "count" store.INTEGER true;
                             store.mkColumn "created_at" store.DATETIME true] [])
             (store.mkTable [store.mkColumn "counts" store.INTEGER true;
                             store.mkColumn "created_at" store.DATETIME true] [])).
  - reflexivity.
  - reflexivity.
  - reflexivity.
  - reflexivity.
  - repeat constructor.
  - unfold runs_clean. repeat split; reflexivity.
  - vm_compute. discriminate.
Defined.

(** ** The read path *)

(** The object [json.Marshal] writes for the map of [List]. *)
Lemma Marshal_counter_lastDate (counts : Z) (lastDate : string) :
  json.Marshal [("counter", json.Int counts); ("lastDate", json.Str lastDate)]
  = ("{" ++ Go.dq ++ "counter" ++ Go.dq ++ ":" ++ Go.itoa counts ++ ","
       ++ Go.dq ++ "lastDate" ++ Go.dq ++ ":" ++ json.encode_string lastDate ++ "}",
     None).
Proof.
  unfold json.Marshal. f_equal.
  replace (json.sort_keys [("counter", json.Int counts); ("lastDate", json.Str lastDate)])
    with [("counter", json.Int counts); ("lastDate", json.Str lastDate)]
    by reflexivity.
  cbn [json.encode_members json.encode_value fst snd].
  replace (json.encode_string "counter") with (Go.dq ++ "counter" ++ Go.dq)
    by reflexivity.
  replace (json.encode_string "lastDate") with (Go.dq ++ "lastDate" ++ Go.dq)
    by reflexivity.
  rewrite !string_app_assoc. reflexivity.
Qed.

(** Escaping distributes over concatenation. *)
Lemma escape_app (a b : string) :
  json.escape (a ++ b) = json.escape a ++ json.escape b.
Proof.
  induction a as [|c a IH]; cbn; [reflexivity|].
  rewrite IH. induction (json.escape_char c); cbn; congruence.
Qed.

(** Decimal digits need no escaping. *)
Lemma escape_uint (d : Decimal.uint) :
  json.escape (NilEmpty.string_of_uint d) = NilEmpty.string_of_uint d.
Proof.
  induction d; cbn [NilEmpty.string_of_uint json.escape];
    try reflexivity; rewrite IHd; reflexivity.
Qed.

Lemma escape_itoa (z : Z) : json.escape (Go.itoa z) = Go.itoa z.
Proof.
  unfold Go.itoa, NilZero.string_of_int, NilZero.string_of_uint.
  destruct (Z.to_int z) as [d | d]; destruct d; cbn;
    try reflexivity; rewrite ?escape_uint; reflexivity.
Qed.

Lemma escape_pad_int (width : nat) (z : Z) :
  json.escape (Go.pad_int width z) = Go.pad_int width z.
Proof.
  unfold Go.pad_int.
  set (zeros := fix zeros (n : nat) : string :=
                  match n with O => EmptyString | S n' => String "0"%char (zeros n') end).
  assert (Hz : forall n, json.escape (zeros n) = zeros n).
  { induction n as [|n IHn]; [reflexivity|].
    change (zeros (S n)) with (String "0"%char (zeros n)).
    cbn [json.escape]. rewrite IHn. reflexivity. }
  destruct (z <? 0); cbn [json.escape];
    rewrite escape_app, Hz, escape_itoa; reflexivity.
Qed.

Lemma escape_format_zone (offset : Z) :
  json.escape (time.format_zone offset) = time.format_zone offset.
Proof.
  unfold time.format_zone. destruct (offset =? 0); [reflexivity|].
  destruct (Z.quot offset 60 <? 0);
    rewrite !escape_app, !escape_pad_int; reflexivity.
Qed.

(** An RFC 3339 time is written into JSON as it is, between quotes. *)
Lemma encode_string_RFC3339 (t : time.Time) :
  json.encode_string (time.Format_RFC3339 t)
  = Go.dq ++ time.Format_RFC3339 t ++ Go.dq.
Proof.
  unfold json.encode_string. f_equal. f_equal.
  unfold time.Format_RFC3339.
  destruct (time.civil_from_days _) as [[y m] d].
  rewrite !escape_app, !escape_pad_int, escape_format_zone. reflexivity.
Qed.

(** The comparison of texts is a total order. *)
Lemma text_compare_refl (a : string) : sqlite3.text_compare a a = Eq.
Proof.
  induction a as [|x a IH]; cbn; [reflexivity|].
  rewrite N.compare_refl. exact IH.
Qed.

Lemma text_compare_antisym (a : string) :
  forall b, sqlite3.text_compare b a = CompOpp (sqlite3.text_compare a b).
Proof.
  induction a as [|x a IH]; intros [|y b]; cbn; try reflexivity.
  rewrite (N.compare_antisym (N_of_ascii x) (N_of_ascii y)).
  destruct (N.compare (N_of_ascii x) (N_of_ascii y)); cbn; [apply IH | | ]; reflexivity.
Qed.

Lemma text_compare_trans (a : string) :
  forall b c,
    sqlite3.text_compare a b <> Gt -> sqlite3.text_compare b c <> Gt ->
    sqlite3.text_compare a c <> Gt.
Proof.
  induction a as [|x a IH]; intros [|y b] [|z c]; cbn; try congruence.
  destruct (N.compare_spec (N_of_ascii x) (N_of_ascii y)) as [Hxy | Hxy | Hxy];
    destruct (N.compare_spec (N_of_ascii y) (N_of_ascii z)) as [Hyz | Hyz | Hyz];
    destruct (N.compare_spec (N_of_ascii x) (N_of_ascii z)) as [Hxz | Hxz | Hxz];
    try congruence; try lia; intros; try discriminate.
  eapply IH; eassumption.
Qed.

Lemma datetime_leb_refl (x : time.Time) : store.datetime_leb x x = true.
Proof. unfold store.datetime_leb. rewrite text_compare_refl. reflexivity. Qed.

Lemma datetime_leb_total (x y : time.Time) :
  store.datetime_leb x y = false -> store.datetime_leb y x = true.
Proof.
  unfold store.datetime_leb.
  rewrite (text_compare_antisym (sqlite3.timestamp_text x) (sqlite3.timestamp_text y)).
  destruct (sqlite3.text_compare _ _); cbn; congruence.
Qed.

Lemma datetime_leb_trans (x y z : time.Time) :
  store.datetime_leb x y = true -> store.datetime_leb y z = true ->
  store.datetime_leb x z = true.
Proof.
  unfold store.datetime_leb. intros Hxy Hyz.
  pose proof (text_compare_trans (sqlite3.timestamp_text x)
                (sqlite3.timestamp_text y) (sqlite3.timestamp_text z)) as H.
  destruct (sqlite3.text_compare (sqlite3.timestamp_text x) (sqlite3.timestamp_text y));
    destruct (sqlite3.text_compare (sqlite3.timestamp_text y) (sqlite3.timestamp_text z));
    destruct (sqlite3.text_compare (sqlite3.timestamp_text x) (sqlite3.timestamp_text z));
    try reflexivity; try discriminate; exfalso; apply H; congruence.
Qed.

(** *** The order of the stored timestamps

    Under one zone offset, and for years of four digits, the texts the
    driver stores are in the order of the instants.  The texts are
    compared field by field; the calendar is checked day by day over
    its cycle of 400 years. *)

Lemma all_in_spec (p : Z -> bool) (n : positive) :
  forall lo, all_in p lo n = true ->
  forall z, lo <= z < lo + Zpos n -> p z = true.
Proof.
  induction n as [n IH | n IH |]; cbn [all_in]; intros lo H z Hz.
  - apply andb_prop in H. destruct H as [H H2].
    apply andb_prop in H. destruct H as [H0 H1].
    destruct (Z.eq_dec z lo) as [-> | Hne]; [exact H0|].
    destruct (Z_lt_dec z (lo + 1 + Zpos n)).
    + apply (IH _ H1). lia.
    + apply (IH _ H2). lia.
  - apply andb_prop in H. destruct H as [H1 H2].
    destruct (Z_lt_dec z (lo + Zpos n)).
    + apply (IH _ H1). lia.
    + apply (IH _ H2). lia.
  - replace z with lo by lia. exact H.
Qed.

(** Comparison and concatenation. *)

Lemma text_compare_app (a s t : string) :
  sqlite3.text_compare (a ++ s) (a ++ t) = sqlite3.text_compare s t.
Proof.
  induction a as [|c a IH]; [reflexivity|].
  cbn [String.append sqlite3.text_compare]. rewrite N.compare_refl. exact IH.
Qed.

Lemma text_compare_app_lt (a b : string) :
  forall s t, String.length a = String.length b ->
  sqlite3.text_compare a b = Lt ->
  sqlite3.text_compare (a ++ s) (b ++ t) = Lt.
Proof.
  revert b. induction a as [|x a IH]; intros [|y b] s t Hlen H;
    cbn in Hlen, H; try discriminate.
  cbn [String.append sqlite3.text_compare].
  destruct (N.compare (N_of_ascii x) (N_of_ascii y)); try assumption.
  apply IH; [congruence | assumption].
Qed.

Lemma text_compare_eq (a b : string) :
  sqlite3.text_compare a b = Eq -> a = b.
Proof.
  revert b. induction a as [|x a IH]; intros [|y b] H; cbn in H;
    try discriminate; [reflexivity|].
  destruct (N.compare (N_of_ascii x) (N_of_ascii y)) eqn:E; try discriminate.
  apply N.compare_eq in E. f_equal.
  - rewrite <- (ascii_N_embedding x), <- (ascii_N_embedding y). congruence.
  - apply IH, H.
Qed.

(** Numbers of one width compare as their digits do. *)

Lemma N_of_digit (u : Z) :
  N_of_ascii (sqlite3.digit u) = Z.to_N (48 + u mod 10).
Proof.
  assert (H : 0 <= u mod 10 < 10) by (apply Z.mod_pos_bound; lia).
  unfold sqlite3.digit.
  assert (Hn : (Z.to_nat (u mod 10) < 10)%nat) by lia.
  replace (u mod 10) with (Z.of_nat (Z.to_nat (u mod 10))) at 2 by lia.
  revert Hn. generalize (Z.to_nat (u mod 10)). intros n Hn.
  do 10 (destruct n as [|n]; [reflexivity|]). lia.
Qed.

Lemma string_length_app (a b : string) :
  String.length (a ++ b) = (String.length a + String.length b)%nat.
Proof. induction a as [|c a IH]; cbn; [reflexivity | rewrite IH; reflexivity]. Qed.

Lemma length_fixed (w : nat) : forall u, String.length (sqlite3.fixed w u) = w.
Proof.
  induction w as [|w IH]; intros u; [reflexivity|].
  cbn [sqlite3.fixed].
  rewrite string_length_app, IH. cbn. lia.
Qed.

Lemma text_compare_fixed (w : nat) :
  forall u v, 0 <= u < 10 ^ Z.of_nat w -> 0 <= v < 10 ^ Z.of_nat w ->
  sqlite3.text_compare (sqlite3.fixed w u) (sqlite3.fixed w v) = (u ?= v).
Proof.
  induction w as [|w IH]; intros u v Hu Hv.
  - cbn in Hu, Hv. replace u with 0 by lia. replace v with 0 by lia. reflexivity.
  - rewrite Nat2Z.inj_succ, Z.pow_succ_r in Hu, Hv by lia.
    cbn [sqlite3.fixed].
    assert (Hu' : 0 <= u / 10 < 10 ^ Z.of_nat w)
      by (split; [apply Z.div_pos; lia | apply Z.div_lt_upper_bound; lia]).
    assert (Hv' : 0 <= v / 10 < 10 ^ Z.of_nat w)
      by (split; [apply Z.div_pos; lia | apply Z.div_lt_upper_bound; lia]).
    specialize (IH _ _ Hu' Hv').
    pose proof (Z.div_mod u 10 ltac:(lia)) as Eu.
    pose proof (Z.div_mod v 10 ltac:(lia)) as Ev.
    pose proof (Z.mod_pos_bound u 10 ltac:(lia)) as Bu.
    pose proof (Z.mod_pos_bound v 10 ltac:(lia)) as Bv.
    destruct (Z.compare_spec (u / 10) (v / 10)) as [E | L | G].
    + apply text_compare_eq in IH. rewrite IH, text_compare_app.
      cbn [sqlite3.text_compare]. rewrite !N_of_digit.
      rewrite Z2N.inj_compare by lia.
      destruct (Z.compare_spec (48 + u mod 10) (48 + v mod 10)) as [E' | L' | G'];
        symmetry.
      * apply Z.compare_eq_iff. lia.
      * apply Z.compare_lt_iff. lia.
      * apply Z.compare_gt_iff. lia.
    + rewrite (text_compare_app_lt _ _ _ _
                 ltac:(rewrite !length_fixed; reflexivity) IH).
      symmetry. apply Z.compare_lt_iff. lia.
    + assert (IH' : sqlite3.text_compare (sqlite3.fixed w (v / 10))
                      (sqlite3.fixed w (u / 10)) = Lt).
      { rewrite text_compare_antisym, IH. reflexivity. }
      rewrite text_compare_antisym.
      rewrite (text_compare_app_lt _ _ _ _
                 ltac:(rewrite !length_fixed; reflexivity) IH').
      symmetry. apply Z.compare_gt_iff. lia.
Qed.

Lemma text_compare_field0 (w : nat) (u v : Z) (r1 r2 : string) :
  0 <= u < 10 ^ Z.of_nat w -> 0 <= v < 10 ^ Z.of_nat w ->
  sqlite3.text_compare (sqlite3.fixed w u ++ r1) (sqlite3.fixed w v ++ r2)
  = match u ?= v with
    | Eq => sqlite3.text_compare r1 r2
    | c => c
    end.
Proof.
  intros Hu Hv. pose proof (text_compare_fixed w u v Hu Hv) as H.
  destruct (Z.compare_spec u v) as [E | L | G].
  - subst v. apply text_compare_app.
  - apply text_compare_app_lt; [rewrite !length_fixed; reflexivity | exact H].
  - rewrite text_compare_antisym.
    rewrite text_compare_app_lt; [reflexivity | rewrite !length_fixed; reflexivity |].
    rewrite text_compare_antisym, H. reflexivity.
Qed.

Lemma text_compare_field (w : nat) (u v : Z) (sep r1 r2 : string) :
  0 <= u < 10 ^ Z.of_nat w -> 0 <= v < 10 ^ Z.of_nat w ->
  sqlite3.text_compare (sqlite3.fixed w u ++ sep ++ r1)
    (sqlite3.fixed w v ++ sep ++ r2)
  = match u ?= v with
    | Eq => sqlite3.text_compare r1 r2
    | c => c
    end.
Proof.
  intros Hu Hv. rewrite (text_compare_field0 w u v _ _ Hu Hv), text_compare_app.
  reflexivity.
Qed.

Lemma pad_int_2 (z : Z) : 0 <= z < 100 -> Go.pad_int 2 z = sqlite3.fixed 2 z.
Proof.
  intros Hz. apply String.eqb_eq.
  apply (all_in_spec
           (fun z => String.eqb (Go.pad_int 2 z) (sqlite3.fixed 2 z)) 100 0);
    [vm_compute; reflexivity | lia].
Qed.

Lemma pad_int_4 (z : Z) : 0 <= z < 10000 -> Go.pad_int 4 z = sqlite3.fixed 4 z.
Proof.
  intros Hz. apply String.eqb_eq.
  apply (all_in_spec
           (fun z => String.eqb (Go.pad_int 4 z) (sqlite3.fixed 4 z)) 10000 0);
    [vm_compute; reflexivity | lia].
Qed.

(** The fraction of a second loses its trailing zeros; what follows it
    is the sign of the zone, which sorts before the point and before
    every digit. *)

Lemma digits_app (a b : string) :
  sqlite3.all_digits a -> sqlite3.all_digits b -> sqlite3.all_digits (a ++ b).
Proof.
  induction a as [|c a IH]; cbn; [tauto|].
  intros [Hc Ha] Hb. split; [exact Hc | exact (IH Ha Hb)].
Qed.

Lemma digits_fixed (w : nat) : forall u, sqlite3.all_digits (sqlite3.fixed w u).
Proof.
  induction w as [|w IH]; intros u; [exact I|].
  cbn [sqlite3.fixed]. apply digits_app; [apply IH|].
  cbn [sqlite3.all_digits]. rewrite N_of_digit.
  pose proof (Z.mod_pos_bound u 10 ltac:(lia)). split; [lia | exact I].
Qed.

Lemma digits_trim_zeros (s : string) :
  sqlite3.all_digits s -> sqlite3.all_digits (sqlite3.trim_zeros s).
Proof.
  induction s as [|c s IH]; cbn [sqlite3.all_digits sqlite3.trim_zeros]; [tauto|].
  intros [Hc Hs]. specialize (IH Hs).
  destruct (sqlite3.trim_zeros s) as [|c' s'].
  - destruct (Ascii.eqb c "0"); cbn; tauto.
  - split; [exact Hc | exact IH].
Qed.

Lemma text_compare_trim_zeros (s1 : string) :
  forall s2 c z,
    sqlite3.all_digits s1 -> sqlite3.all_digits s2 ->
    String.length s1 = String.length s2 ->
    (N_of_ascii c < 48)%N ->
    sqlite3.text_compare s1 s2 = Lt ->
    sqlite3.text_compare (sqlite3.trim_zeros s1 ++ String c z)
      (sqlite3.trim_zeros s2 ++ String c z) = Lt.
Proof.
  induction s1 as [|a r1 IH]; intros [|b r2] c z D1 D2 Hlen Hc H;
    cbn in Hlen, H; try discriminate.
  destruct D1 as [Da D1], D2 as [Db D2].
  assert (Hca : (N_of_ascii c ?= N_of_ascii a)%N = Lt)
    by (apply N.compare_lt_iff; lia).
  assert (Hcb : (N_of_ascii c ?= N_of_ascii b)%N = Lt)
    by (apply N.compare_lt_iff; lia).
  cbn [sqlite3.trim_zeros].
  destruct (N.compare_spec (N_of_ascii a) (N_of_ascii b)) as [E | L | G];
    try discriminate.
  - assert (Hab : a = b)
      by (rewrite <- (ascii_N_embedding a), <- (ascii_N_embedding b); congruence).
    subst b.
    specialize (IH r2 c z D1 D2 ltac:(congruence) Hc H).
    pose proof (digits_trim_zeros r1 D1) as T1.
    destruct (sqlite3.trim_zeros r2) as [|b2 t2].
    { exfalso. destruct (sqlite3.trim_zeros r1) as [|a1 t1].
      - cbn in IH. rewrite N.compare_refl, text_compare_refl in IH. discriminate.
      - cbn in IH, T1. destruct T1 as [T1 _].
        assert (G : (N_of_ascii a1 ?= N_of_ascii c)%N = Gt)
          by (apply N.compare_gt_iff; lia).
        rewrite G in IH. discriminate. }
    destruct (sqlite3.trim_zeros r1) as [|a1 t1].
    + destruct (Ascii.eqb a "0").
      * cbn [String.append sqlite3.text_compare]. rewrite Hca. reflexivity.
      * cbn [String.append sqlite3.text_compare]. rewrite N.compare_refl.
        exact IH.
    + cbn [String.append sqlite3.text_compare]. rewrite N.compare_refl. exact IH.
  - assert (Hb0 : Ascii.eqb b "0" = false).
    { apply Ascii.eqb_neq. intros ->. cbn in L. lia. }
    assert (Hl : (N_of_ascii a ?= N_of_ascii b)%N = Lt)
      by (apply N.compare_lt_iff; exact L).
    destruct (sqlite3.trim_zeros r2) as [|b2 t2]; rewrite ?Hb0;
      (destruct (sqlite3.trim_zeros r1) as [|a1 t1];
       [destruct (Ascii.eqb a "0")|]);
      cbn [String.append sqlite3.text_compare]; rewrite ?Hcb, ?Hl; reflexivity.
Qed.

Lemma format_nano_lt (n1 n2 : Z) (c : ascii) (z : string) :
  0 <= n1 -> n1 < n2 -> n2 < 1000000000 ->
  (N_of_ascii c < 46)%N ->
  sqlite3.text_compare (sqlite3.format_nano n1 ++ String c z)
    (sqlite3.format_nano n2 ++ String c z) = Lt.
Proof.
  intros H0 H12 H2 Hc.
  assert (Hf : sqlite3.text_compare (sqlite3.fixed 9 n1) (sqlite3.fixed 9 n2) = Lt).
  { rewrite text_compare_fixed by (change (10 ^ Z.of_nat 9) with 1000000000; lia).
    apply Z.compare_lt_iff. exact H12. }
  pose proof (text_compare_trim_zeros _ _ c z (digits_fixed 9 n1) (digits_fixed 9 n2)
                ltac:(rewrite !length_fixed; reflexivity) ltac:(lia) Hf) as H.
  pose proof (digits_trim_zeros _ (digits_fixed 9 n1)) as T1.
  unfold sqlite3.format_nano.
  destruct (sqlite3.trim_zeros (sqlite3.fixed 9 n1)) as [|a1 t1];
    destruct (sqlite3.trim_zeros (sqlite3.fixed 9 n2)) as [|a2 t2].
  - cbn in H. rewrite N.compare_refl, text_compare_refl in H. discriminate.
  - cbn [String.append sqlite3.text_compare].
    assert (L : (N_of_ascii c ?= N_of_ascii ".")%N = Lt)
      by (apply N.compare_lt_iff; cbn; lia).
    rewrite L. reflexivity.
  - exfalso. cbn in H, T1. destruct T1 as [T1 _].
    assert (G : (N_of_ascii a1 ?= N_of_ascii c)%N = Gt)
      by (apply N.compare_gt_iff; lia).
    rewrite G in H. discriminate.
  - cbn [String.append sqlite3.text_compare]. rewrite N.compare_refl. exact H.
Qed.

(** [civil_from_days] repeats after 146097 days, 400 years later. *)

Lemma civil_from_days_cycle (days k : Z) :
  time.civil_from_days (days + 146097 * k)
  = let '(y, m, d) := time.civil_from_days days in (y + 400 * k, m, d).
Proof.
  unfold time.civil_from_days. cbv zeta.
  replace (days + 146097 * k + 719468) with (days + 719468 + k * 146097) by ring.
  rewrite Z.div_add by lia.
  replace (days + 719468 + k * 146097 - ((days + 719468) / 146097 + k) * 146097)
    with (days + 719468 - (days + 719468) / 146097 * 146097) by ring.
  set (doe := days + 719468 - (days + 719468) / 146097 * 146097).
  set (yoe := (doe - doe / 1460 + doe / 36524 - doe / 146096) / 365).
  set (doy := doe - (365 * yoe + yoe / 4 - yoe / 100)).
  set (mp := (5 * doy + 2) / 153).
  destruct ((if mp <? 10 then mp + 3 else mp - 9) <=? 2); f_equal; f_equal; ring.
Qed.

Lemma date_scan_invariant (lo : Z) (n : positive) :
  let '(days, key, ok) :=
    Pos.iter time.date_scan (lo, time.date_key (lo - 1), true) n in
  key = time.date_key (days - 1) /\
  (ok = true -> forall z, lo <= z < days -> time.date_ok z = true).
Proof.
  apply (Pos.iter_invariant n _ time.date_scan
           (fun st => let '(days, key, ok) := st in
              key = time.date_key (days - 1) /\
              (ok = true -> forall z, lo <= z < days -> time.date_ok z = true))).
  - intros [[days key] ok] [Hkey Hok]. unfold time.date_scan.
    destruct (time.civil_from_days days) as [[y m] d] eqn:E. split.
    + unfold time.date_key. replace (days + 1 - 1) with days by ring.
      rewrite E. reflexivity.
    + intros H z Hz. apply andb_prop in H. destruct H as [H1 H2].
      destruct (Z.eq_dec z days) as [-> | Hne]; [|apply (Hok H1); lia].
      unfold time.date_ok. rewrite E. rewrite <- Hkey.
      unfold time.date_key at 1. rewrite E. exact H2.
  - split; [reflexivity | intros _ z Hz; lia].
Qed.

(** The days of the 400 years from 0000-03-01 to 0400-03-01, one by
    one. *)
Lemma date_ok_cycle :
  forall z, - 719468 <= z < - 719468 + 146098 -> time.date_ok z = true.
Proof.
  pose proof (date_scan_invariant (- 719468) 146098) as H.
  assert (E : Pos.iter time.date_scan
                (- 719468, time.date_key (- 719468 - 1), true) 146098
              = (- 719468 + 146098, 4000301, true))
    by (vm_cast_no_check
          (@eq_refl (Z * Z * bool) (- 719468 + 146098, 4000301, true))).
  rewrite E in H. destruct H as [_ H]. exact (H eq_refl).
Qed.

Lemma date_step (days : Z) :
  let '(y, m, d) := time.civil_from_days days in
  1 <= m <= 12 /\ 1 <= d <= 31 /\ time.date_key days < time.date_key (days + 1).
Proof.
  set (k := (days + 719468) / 146097).
  set (d0 := days - 146097 * k).
  assert (Hd0 : - 719468 <= d0 < - 719468 + 146097).
  { pose proof (Z.div_mod (days + 719468) 146097 ltac:(lia)) as E.
    pose proof (Z.mod_pos_bound (days + 719468) 146097 ltac:(lia)) as B.
    fold k in E. unfold d0. lia. }
  pose proof (date_ok_cycle d0 ltac:(lia)) as H0.
  pose proof (date_ok_cycle (d0 + 1) ltac:(lia)) as H1.
  unfold time.date_ok in H0, H1. replace (d0 + 1 - 1) with d0 in H1 by ring.
  unfold time.date_key in *.
  replace (days + 1) with (d0 + 1 + 146097 * k) by (unfold d0; ring).
  replace days with (d0 + 146097 * k) by (unfold d0; ring).
  rewrite !civil_from_days_cycle.
  destruct (time.civil_from_days d0) as [[y m] d].
  destruct (time.civil_from_days (d0 + 1)) as [[y' m'] d'].
  rewrite !andb_true_iff in H0, H1. lia.
Qed.

Lemma date_key_lt (a b : Z) : a < b -> time.date_key a < time.date_key b.
Proof.
  intros Hab. replace b with (a + 1 + (b - a - 1)) by ring.
  assert (Hn : 0 <= b - a - 1) by lia.
  revert Hn. generalize (b - a - 1). clear b Hab.
  apply natlike_ind.
  - pose proof (date_step a) as H.
    destruct (time.civil_from_days a) as [[y m] d].
    replace (a + 1 + 0) with (a + 1) by ring. tauto.
  - intros n Hn IH.
    pose proof (date_step (a + 1 + n)) as H.
    destruct (time.civil_from_days (a + 1 + n)) as [[y m] d].
    replace (a + 1 + Z.succ n) with (a + 1 + n + 1) by lia. lia.
Qed.

Lemma format_zone_head (offset : Z) :
  exists c z, sqlite3.format_zone offset = String c z /\ (N_of_ascii c < 46)%N.
Proof.
  unfold sqlite3.format_zone. cbv zeta.
  destruct (Z.quot offset 60 <? 0); cbn [String.append];
    eexists; eexists; (split; [reflexivity | cbn; lia]).
Qed.

(** Under one zone offset, and as long as the year has four digits, the
    stored texts are in the order of the instants. *)
Lemma timestamp_text_lt (x y : time.Time) :
  time.zone_offset x = time.zone_offset y ->
  sqlite3.year_in_layout x = true -> sqlite3.year_in_layout y = true ->
  time.unix_nano x < time.unix_nano y ->
  sqlite3.text_compare (sqlite3.timestamp_text x) (sqlite3.timestamp_text y) = Lt.
Proof.
  destruct x as [ux off], y as [uy off'].
  unfold sqlite3.year_in_layout, sqlite3.timestamp_text.
  cbn [time.unix_nano time.zone_offset]. intros <- Yx Yy Hlt. cbv zeta in *.
  pose proof (Z.div_mod ux 1000000000 ltac:(lia)) as Eux.
  pose proof (Z.mod_pos_bound ux 1000000000 ltac:(lia)) as Bux.
  pose proof (Z.div_mod uy 1000000000 ltac:(lia)) as Euy.
  pose proof (Z.mod_pos_bound uy 1000000000 ltac:(lia)) as Buy.
  set (nx := ux mod 1000000000) in *. set (ny := uy mod 1000000000) in *.
  set (sx := ux / 1000000000 + off) in *. set (sy := uy / 1000000000 + off) in *.
  assert (Hs : sx < sy \/ sx = sy /\ nx < ny) by (unfold sx, sy; lia).
  clearbody sx sy nx ny. clear Eux Euy Hlt ux uy.
  pose proof (Z.div_mod sx 86400 ltac:(lia)) as Esx.
  pose proof (Z.mod_pos_bound sx 86400 ltac:(lia)) as Bsx.
  pose proof (Z.div_mod sy 86400 ltac:(lia)) as Esy.
  pose proof (Z.mod_pos_bound sy 86400 ltac:(lia)) as Bsy.
  set (rx := sx mod 86400) in *. set (ry := sy mod 86400) in *.
  set (dx := sx / 86400) in *. set (dy := sy / 86400) in *.
  assert (Hd : dx < dy \/ dx = dy /\ (rx < ry \/ rx = ry /\ nx < ny)) by lia.
  clearbody dx dy rx ry. clear Esx Esy Hs sx sy.
  assert (Hkey : dx < dy -> time.date_key dx < time.date_key dy)
    by apply date_key_lt.
  pose proof (date_step dx) as Sx. pose proof (date_step dy) as Sy.
  unfold time.date_key in Hkey.
  destruct (time.civil_from_days dx) as [[y1 m1] d1] eqn:E1.
  destruct (time.civil_from_days dy) as [[y2 m2] d2] eqn:E2.
  apply andb_prop in Yx, Yy.
  destruct Yx as [Yx0 Yx1], Yy as [Yy0 Yy1].
  apply Z.leb_le in Yx0, Yx1, Yy0, Yy1.
  assert (Hdate : y1 < y2 \/ y1 = y2 /\ (m1 < m2 \/ m1 = m2 /\ (d1 < d2 \/
                    d1 = d2 /\ (rx < ry \/ rx = ry /\ nx < ny)))).
  { destruct Hd as [Hd | [Hd Hr]].
    - specialize (Hkey Hd). lia.
    - subst dy. rewrite E1 in E2. injection E2 as <- <- <-. lia. }
  destruct Sx as (Bm1 & Bd1 & _), Sy as (Bm2 & Bd2 & _).
  clear Hd Hkey E1 E2.
  pose proof (Z.div_mod rx 3600 ltac:(lia)) as Erx.
  pose proof (Z.mod_pos_bound rx 3600 ltac:(lia)) as Brx.
  pose proof (Z.div_mod ry 3600 ltac:(lia)) as Ery.
  pose proof (Z.mod_pos_bound ry 3600 ltac:(lia)) as Bry.
  pose proof (Z.div_mod (rx mod 3600) 60 ltac:(lia)) as Emx.
  pose proof (Z.mod_pos_bound (rx mod 3600) 60 ltac:(lia)) as Bmx.
  pose proof (Z.div_mod (ry mod 3600) 60 ltac:(lia)) as Emy.
  pose proof (Z.mod_pos_bound (ry mod 3600) 60 ltac:(lia)) as Bmy.
  assert (Hss : forall r, r mod 60 = r mod 3600 mod 60).
  { intros r. symmetry. change 3600 with (60 * 60).
    rewrite Z.rem_mul_r by lia.
    rewrite (Z.mul_comm 60 (r / 60 mod 60)), Z.mod_add by lia.
    apply Z.mod_mod. lia. }
  rewrite (Hss rx), (Hss ry).
  set (hx := rx / 3600) in *. set (hy := ry / 3600) in *.
  set (mx := rx mod 3600 / 60) in *. set (my := ry mod 3600 / 60) in *.
  set (cx := rx mod 3600 mod 60) in *. set (cy := ry mod 3600 mod 60) in *.
  set (qx := rx mod 3600) in *. set (qy := ry mod 3600) in *.
  clearbody hx hy mx my cx cy qx qy.
  rewrite (pad_int_4 y1), (pad_int_4 y2), (pad_int_2 m1), (pad_int_2 m2),
    (pad_int_2 d1), (pad_int_2 d2), (pad_int_2 hx), (pad_int_2 hy),
    (pad_int_2 mx), (pad_int_2 my), (pad_int_2 cx), (pad_int_2 cy) by lia.
  rewrite (text_compare_field 4), !(text_compare_field 2),
    (text_compare_field0 2)
    by (change (10 ^ Z.of_nat 4) with 10000; change (10 ^ Z.of_nat 2) with 100; lia).
  destruct (format_zone_head off) as (c & z & -> & Hc).
  destruct (Z.compare_spec y1 y2); [|reflexivity|lia].
  destruct (Z.compare_spec m1 m2); [|reflexivity|lia].
  destruct (Z.compare_spec d1 d2); [|reflexivity|lia].
  destruct (Z.compare_spec hx hy); [|reflexivity|lia].
  destruct (Z.compare_spec mx my); [|reflexivity|lia].
  destruct (Z.compare_spec cx cy); [|reflexivity|lia].
  apply format_nano_lt; [lia | lia | lia | exact Hc].
Qed.

(** The head of the sorted rows is a row whose stored [created_at] no
    other row's exceeds. *)
Lemma insert_desc_not_nil a l : store.insert_desc a l <> [].
Proof. destruct l; cbn; [|destruct (store.datetime_leb _ _)]; discriminate. Qed.

Lemma order_by_created_at_desc_head (l : list store.Aggregate) :
  forall row rest,
    store.order_by_created_at_desc l = row :: rest ->
    In row l /\
    forall r, In r l ->
      store.datetime_leb (store.agg_created_at r) (store.agg_created_at row) = true.
Proof.
  induction l as [|a l IH]; intros row rest H; [discriminate|].
  cbn [store.order_by_created_at_desc fold_right] in H.
  fold (store.order_by_created_at_desc l) in H.
  destruct (store.order_by_created_at_desc l) as [|b s] eqn:E.
  - assert (l = []) as ->.
    { destruct l as [|x l']; [reflexivity|]. cbn in E.
      exfalso. exact (insert_desc_not_nil _ _ E). }
    cbn in H. injection H as <- _. split; [left; reflexivity|].
    intros r [<- | []]. apply datetime_leb_refl.
  - destruct (IH b s eq_refl) as [Hin Hmax].
    cbn [store.insert_desc] in H.
    destruct (store.datetime_leb _ _) eqn:Hcmp; injection H as <- _.
    + split; [left; reflexivity|].
      intros r [<- | Hr]; [apply datetime_leb_refl|].
      exact (datetime_leb_trans _ _ _ (Hmax r Hr) Hcmp).
    + split; [right; exact Hin|].
      intros r [<- | Hr]; [exact (datetime_leb_total _ _ Hcmp)|]. exact (Hmax r Hr).
Qed.


(** [List] on a connection that works and a query that the driver lets
    through answers 200, with the latest row or with the zero state. *)
Lemma List_answer (env : Env) (w : World) ta :
  store.counter_aggregate (db w) = Some ta ->
  conn_err env = None -> query_err env = None ->
  fst (main.List env http.NewResponse w) =
    match store.order_by_created_at_desc (store.rows ta) with
    | [] =>
        main.write_ok
          (fst (json.Marshal
                  [("counter", json.Int 0);
                   ("lastDate",
                    json.Str (time.Format_RFC3339 (time.Unix (epoch_offset env) 0 0)))]))
          http.NewResponse
    | row :: _ =>
        main.write_ok
          (fst (json.Marshal
                  [("counter", json.Int (store.counts row));
                   ("lastDate",
                    json.Str (time.Format_RFC3339 (store.agg_created_at row)))]))
          http.NewResponse
    end.
Proof.
  intros Hta Hc Hq.
  unfold main.List, Conn, QueryRowContext_Scan, store.select_latest.
  rewrite Hc. cbn [db fst]. rewrite Hq, Hta.
  destruct (store.order_by_created_at_desc (store.rows ta)) as [|row rest];
    reflexivity.
Qed.

(** C2 as amended. On a store with no row in [counter_aggregate], [List]
    answers 200 with counter 0 and, as [lastDate], the Unix epoch written
    in RFC 3339 in the local zone of the process; where that zone is UTC
    the body is [{"counter":0,"lastDate":"1970-01-01T00:00:00Z"}]. *)
Theorem List_on_empty_store_answers_zero_state (env : Env) (w : World) ta :
  store.counter_aggregate (db w) = Some ta ->
  store.rows ta = [] ->
  conn_err env = None -> query_err env = None ->
  let rw := fst (main.List env http.NewResponse w) in
  http.status rw = Some http.StatusOK /\
  http.body rw =
    "{" ++ Go.dq ++ "counter" ++ Go.dq ++ ":0," ++ Go.dq ++ "lastDate" ++ Go.dq ++ ":"
      ++ Go.dq ++ time.Format_RFC3339 (time.Unix (epoch_offset env) 0 0) ++ Go.dq ++ "}" /\
  (epoch_offset env = 0 ->
   http.body rw =
     "{" ++ Go.dq ++ "counter" ++ Go.dq ++ ":0," ++ Go.dq ++ "lastDate" ++ Go.dq ++ ":"
       ++ Go.dq ++ "1970-01-01T00:00:00Z" ++ Go.dq ++ "}").
Proof.
  intros Hta Hrows Hc Hq rw. subst rw.
  rewrite (List_answer env w ta Hta Hc Hq), Hrows.
  cbn [store.order_by_created_at_desc fold_right].
  rewrite Marshal_counter_lastDate, encode_string_RFC3339.
  split; [reflexivity|]. split.
  - cbn [fst main.write_ok http.Write http.body http.WriteHeader http.status
           http.Header_Set http.NewResponse http.Header].
    cbn [String.append]. rewrite !string_app_assoc. reflexivity.
  - intros ->. reflexivity.
Qed.

Lemma List_on_empty_store_answers_zero_state_witness :
  let env := quiet (time.mkTime 1700000000000000000 0) 0 in
  let w := snd (main.Migrate env boot) in
  fst (main.List env http.NewResponse w)
  = http.mkResponseWriter [("Content-Type", "application/json")] (Some 200)
      ("{" ++ Go.dq ++ "counter" ++ Go.dq ++ ":0," ++ Go.dq ++ "lastDate" ++ Go.dq ++ ":"
         ++ Go.dq ++ "1970-01-01T00:00:00Z" ++ Go.dq ++ "}").
Proof.
  intros env w.
  destruct (List_on_empty_store_answers_zero_state env w
              (store.mkTable [store.mkColumn "counts" store.INTEGER true;
                              store.mkColumn "created_at" store.DATETIME true] [])
              eq_refl eq_refl eq_refl eq_refl) as (Hs & _ & Hb).
  specialize (Hb eq_refl).
  destruct (fst (main.List env http.NewResponse w)) as [h st b] eqn:E.
  cbn [http.status http.body] in Hs, Hb. subst st b.
  f_equal. apply (f_equal http.Header) in E. cbn [http.Header] in E.
  rewrite <- E. reflexivity.
Defined.

(** C2 as stated fails where the local zone is not UTC: seven hours east,
    a migrated store without a snapshot is answered with the epoch at
    07:00 and offset +07:00. *)
Lemma List_on_empty_store_not_UTC_counterexample :
  let env := quiet (time.mkTime 1700000000000000000 25200) 25200 in
  let w := snd (main.Migrate env boot) in
  option_map store.rows (store.counter_aggregate (db w)) = Some [] /\
  runs_clean env /\
  http.status (fst (main.List env http.NewResponse w)) = Some 200 /\
  http.body (fst (main.List env http.NewResponse w))
  = "{" ++ Go.dq ++ "counter" ++ Go.dq ++ ":0," ++ Go.dq ++ "lastDate" ++ Go.dq ++ ":"
      ++ Go.dq ++ "1970-01-01T07:00:00+07:00" ++ Go.dq ++ "}" /\
  http.body (fst (main.List env http.NewResponse w))
  <> "{" ++ Go.dq ++ "counter" ++ Go.dq ++ ":0," ++ Go.dq ++ "lastDate" ++ Go.dq ++ ":"
       ++ Go.dq ++ "1970-01-01T00:00:00Z" ++ Go.dq ++ "}".
Proof.
  intros env w. split; [reflexivity|]. split.
  { unfold runs_clean. repeat split; reflexivity. }
  split; [reflexivity|]. split; [reflexivity|].
  vm_compute. discriminate.
Qed.




(** The counter of a 200 from [List] is [reported] of the database. *)
Lemma List_reports (env : Env) (w : World) ta :
  store.counter_aggregate (db w) = Some ta ->
  conn_err env = None -> query_err env = None ->
  let rw := fst (main.List env http.NewResponse w) in
  http.status rw = Some http.StatusOK /\
  exists lastDate,
    http.body rw =
      "{" ++ Go.dq ++ "counter" ++ Go.dq ++ ":" ++ Go.itoa (reported (db w)) ++ ","
        ++ Go.dq ++ "lastDate" ++ Go.dq ++ ":" ++ Go.dq ++ lastDate ++ Go.dq ++ "}".
Proof.
  intros Hta Hc Hq rw. subst rw.
  rewrite (List_answer env w ta Hta Hc Hq).
  unfold reported, store.select_latest. rewrite Hta.
  destruct (store.order_by_created_at_desc (store.rows ta)) as [|row rest];
    rewrite Marshal_counter_lastDate, encode_string_RFC3339;
    (split; [reflexivity|]);
    [ exists (time.Format_RFC3339 (time.Unix (epoch_offset env) 0 0))
    | exists (time.Format_RFC3339 (store.agg_created_at row)) ];
    cbn [fst main.write_ok http.Write http.body http.WriteHeader http.status
           http.Header_Set http.NewResponse http.Header firstn];
    cbn [String.append]; rewrite !string_app_assoc; reflexivity.
Qed.

(** The world after [List] differs from the world before in its log at
    most. *)
Lemma List_frame (env : Env) (rw : http.ResponseWriter) (w : World) :
  let w' := snd (main.List env rw w) in
  db w' = db w /\ open_txs w' = open_txs w /\
  conns w' = conns w /\ goroutines w' = goroutines w.
Proof.
  unfold main.List, main.deferred_close, Conn, Close.
  destruct (conn_err env); [cbn; auto|].
  cbn [db conns open_txs logged goroutines snd].
  destruct (close_err env); cbn; auto.
Qed.

(** C10. [List] changes nothing in the store, whatever it answers (a
    snapshot, the zero state or an error): both tables are what they
    were, no transaction is left open, the connection is back in the pool
    and no goroutine is started. *)
Theorem List_is_read_only (env : Env) (rw : http.ResponseWriter) (w : World) :
  let w' := snd (main.List env rw w) in
  store.counter (db w') = store.counter (db w) /\
  store.counter_aggregate (db w') = store.counter_aggregate (db w) /\
  open_txs w' = open_txs w /\
  conns w' = conns w /\ goroutines w' = goroutines w.
Proof.
  destruct (List_frame env rw w) as (Hdb & Ht & Hc & Hg).
  cbn zeta. rewrite Hdb. auto.
Qed.

(** ** The schema *)

(** [Migrate] either returns an error and leaves the store as it was, or
    returns nil after creating the tables that were missing.  Either way
    its transaction is over and its connection back in the pool. *)
Lemma Migrate_cases (env : Env) (w : World) :
  let r := main.Migrate env w in
  ((exists err, fst r = Some err) /\ db (snd r) = db w
   \/
   fst r = None /\
   db (snd r) = store.create_counter_aggregate (store.create_counter (db w)))
  /\ open_txs (snd r) = open_txs w /\ conns (snd r) = conns w
  /\ goroutines (snd r) = goroutines w.
Proof.
  unfold main.Migrate, main.deferred_close, Conn, BeginTx, ExecContext, Commit,
    Rollback, Close.
  destruct w as [d c o l g]; cbn [db conns open_txs logged goroutines].
  assert (Herr : forall (e : Go.error) (d' : store.Database) (w' : World),
             db w' = d -> open_txs w' = o -> conns w' = c -> goroutines w' = g ->
             ((exists err, fst (Some e, w') = Some err) /\ db (snd (Some e, w')) = d
              \/ fst (Some e, w') = None /\ db (snd (Some e, w')) = d')
             /\ open_txs (snd (Some e, w')) = o /\ conns (snd (Some e, w')) = c
             /\ goroutines (snd (Some e, w')) = g).
  { intros e d' w' H1 H2 H3 H4. cbn. repeat split; eauto. }
  destruct (conn_err env) as [e1|].
  { apply Herr; reflexivity. }
  destruct (begin_err env) as [e2|].
  { destruct (close_err env); apply Herr; reflexivity. }
  cbn [done view db conns open_txs logged goroutines].
  destruct (exec_err env 0%nat) as [e3|].
  { destruct (rollback_err env), (close_err env); apply Herr; reflexivity. }
  cbn [done view db conns open_txs logged goroutines].
  destruct (exec_err env 1%nat) as [e4|].
  { destruct (rollback_err env), (close_err env); apply Herr; reflexivity. }
  cbn [done view db conns open_txs logged goroutines].
  destruct (commit_err env) as [e5|].
  { destruct (close_err env); apply Herr; reflexivity. }
  destruct (close_err env); cbn; repeat split; right; split; reflexivity.
Qed.

(** Where both tables exist, the two [CREATE TABLE IF NOT EXISTS] change
    nothing. *)
Lemma create_tables_when_present (d : store.Database) :
  store.counter d <> None -> store.counter_aggregate d <> None ->
  store.create_counter_aggregate (store.create_counter d) = d.
Proof.
  destruct d as [[c|] [a|]]; cbn; congruence.
Qed.

Lemma create_tables_present (d : store.Database) :
  let d' := store.create_counter_aggregate (store.create_counter d) in
  store.counter d' <> None /\ store.counter_aggregate d' <> None.
Proof.
  destruct d as [[c|] [a|]]; cbn; split; congruence.
Qed.

(** C5. Once [Migrate] has succeeded, every further [Migrate] leaves the
    store as it is: the same tables with the same columns and rows; and
    it returns nil unless one of its calls to the driver fails. *)
Theorem Migrate_is_idempotent (env1 env2 : Env) (w : World) :
  fst (main.Migrate env1 w) = None ->
  let w1 := snd (main.Migrate env1 w) in
  let r := main.Migrate env2 w1 in
  db (snd r) = db w1 /\
  (runs_clean env2 -> fst r = None).
Proof.
  intros H1 w1 r.
  destruct (Migrate_cases env1 w) as [[[[err He] _] | [_ Hdb]] _].
  { rewrite H1 in He. discriminate. }
  change (snd (main.Migrate env1 w)) with w1 in Hdb.
  destruct (create_tables_present (db w)) as [Hc Ha]. rewrite <- Hdb in Hc, Ha.
  pose proof (Migrate_cases env2 w1) as H2.
  change (main.Migrate env2 w1) with r in H2. cbn zeta in H2.
  destruct H2 as [[[_ Hsame] | [Hnil Hdb2]] _].
  - split; [exact Hsame|].
    intros (Hconn & Hbegin & Hexec & _ & _ & _ & Hcommit).
    clear -Hconn Hbegin Hexec Hcommit. subst r.
    unfold main.Migrate, main.deferred_close, Conn, BeginTx, ExecContext, Commit,
      Close.
    rewrite Hconn, Hbegin. cbn [done view db conns open_txs logged goroutines].
    rewrite !Hexec. cbn [done view db conns open_txs logged goroutines].
    rewrite Hcommit. reflexivity.
  - split; [|intros _; exact Hnil].
    rewrite Hdb2. apply create_tables_when_present; assumption.
Qed.

Lemma Migrate_is_idempotent_witness :
  let env := quiet (time.mkTime 1700000000000000000 25200) 25200 in
  let w1 := snd (main.Migrate env boot) in
  db (snd (main.Migrate env w1)) = db w1 /\ fst (main.Migrate env w1) = None.
Proof.
  intros env w1.
  destruct (Migrate_is_idempotent env env boot eq_refl) as [Hdb Hnil].
  split; [exact Hdb|]. apply Hnil.
  unfold runs_clean. repeat split; reflexivity.
Defined.

(** ** Errors during aggregation *)

(** [CreateAggregate] ends in one of two ways.  Either an error reached
    the code: it is logged and the store is what it was.  Or every call
    returned nil: the loop came out with [counts], one row with that
    value is committed and the success line is logged.  The second case
    does not say that the loop saw every row. *)
Lemma CreateAggregate_cases (env : Env) (w : World) :
  let w' := main.CreateAggregate env w in
  (db w' = db w /\
   exists err rest,
     CreateAggregate_step_error env w err /\
     logged w' = (logged w ++ Go.Error err :: rest)%list)
  \/
  (exists te ta counts,
     store.counter (db w) = Some te /\
     store.counter_aggregate (db w) = Some ta /\
     main.scan_rows env 0 (map store.count (store.rows te)) 0 = inr counts /\
     db w' =
       store.mkDatabase (Some te)
         (Some (store.mkTable (store.columns ta)
                  (store.rows ta ++ [store.mkAggregate counts (now env)]))) /\
     open_txs w' = open_txs w /\
     (forall err, ~ CreateAggregate_step_error env w err) /\
     exists rest,
       logged w' =
         (logged w ++ ("Aggregate created, with counts: " ++ Go.itoa counts)%string :: rest)%list).
Proof.
  unfold CreateAggregate_step_error, main.CreateAggregate, main.deferred_close,
    main.deferred_rows_close, Conn, BeginTx, QueryContext, ExecContext, Commit,
    Rollback, Close, store.select_count, store.insert_counter_aggregate,
    log.Println, log.Printf_d.
  destruct w as [d c o l g]; cbn [db conns open_txs logged goroutines done view].
  destruct (conn_err env) as [e1|] eqn:E1.
  { left. split; [reflexivity|]. exists e1, []. auto. }
  destruct (begin_err env) as [e2|] eqn:E2.
  { left. destruct (close_err env); cbn; (split; [reflexivity|]);
      exists e2; eexists; (split; [auto|]);
      rewrite <- ?app_assoc; reflexivity. }
  cbn [db conns open_txs logged goroutines done view].
  destruct (query_err env) as [e3|] eqn:E3.
  { left. destruct (close_err env); cbn; (split; [reflexivity|]);
      exists e3; eexists; (split; [auto|]);
      rewrite <- ?app_assoc; reflexivity. }
  destruct (store.counter d) as [te|] eqn:Ete.
  2:{ left. destruct (close_err env); cbn; (split; [reflexivity|]);
      exists (store.no_such_table "counter"); eexists; (split; [auto|]);
      rewrite <- ?app_assoc; reflexivity. }
  destruct (main.scan_rows env 0 (map store.count (store.rows te)) 0)
    as [e4|counts] eqn:Escan.
  { left. destruct (rows_close_err env), (close_err env); cbn;
      (split; [reflexivity|]); exists e4; eexists;
      (split; [do 3 right; left; eauto|]);
      rewrite <- ?app_assoc; reflexivity. }
  destruct (exec_err env 0%nat) as [e5|] eqn:E5.
  { left. destruct (rollback_err env), (rows_close_err env), (close_err env); cbn;
      (split; [reflexivity|]); exists e5; eexists;
      (split; [auto 6|]); rewrite <- ?app_assoc; reflexivity. }
  destruct (store.counter_aggregate d) as [ta|] eqn:Eta.
  2:{ left. destruct (rollback_err env), (rows_close_err env), (close_err env); cbn;
      (split; [reflexivity|]); exists (store.no_such_table "counter_aggregate");
      eexists; (split; [do 5 right; left; exists counts; reflexivity|]);
      rewrite <- ?app_assoc; reflexivity. }
  cbn [db conns open_txs logged goroutines done view].
  destruct (commit_err env) as [e6|] eqn:E6.
  { left. destruct (rows_close_err env), (close_err env); cbn;
      (split; [reflexivity|]); exists e6; eexists;
      (split; [auto 8|]); rewrite <- ?app_assoc; reflexivity. }
  right. exists te, ta, counts.
  assert (Hnone : forall err : Go.error,
             ~ (None = Some err \/ None = Some err \/
                @inr Go.error _ (map store.count (store.rows te)) = inl err \/
                (exists rows,
                    @inr Go.error _ (map store.count (store.rows te)) = inr rows /\
                    main.scan_rows env 0 rows 0 = inl err) \/
                None = Some err \/
                (exists counts0 : Z,
                    @inr Go.error _
                      (store.mkDatabase (Some te)
                         (Some (store.mkTable (store.columns ta)
                                  (store.rows ta ++
                                     [store.mkAggregate counts0 (now env)]))))
                    = inl err) \/
                None = Some err)).
  { intros err [H | [H | [H | [(rows & Hr & H) | [H | [(c0 & H) | H]]]]]];
      try discriminate.
    injection Hr as <-. congruence. }
  destruct (rows_close_err env), (close_err env); cbn;
    repeat (split; [first [reflexivity | exact Escan | exact Hnone]|]); eexists;
    rewrite <- ?app_assoc; reflexivity.
Qed.

(** An error that reaches the code of [CreateAggregate] is logged, and
    nothing is committed. *)
Lemma CreateAggregate_noticed_error_writes_nothing (env : Env) (w : World) :
  (exists err, CreateAggregate_step_error env w err) ->
  let w' := main.CreateAggregate env w in
  db w' = db w /\
  exists err rest,
    CreateAggregate_step_error env w err /\
    logged w' = (logged w ++ Go.Error err :: rest)%list.
Proof.
  intros [err Herr] w'. subst w'.
  destruct (CreateAggregate_cases env w) as [H | H]; [exact H|].
  exfalso.
  destruct H as (te & ta & counts & _ & _ & _ & _ & _ & Hnone & _).
  exact (Hnone err Herr).
Qed.

(** C3 at a failing input. Two events are stored; the aggregation's
    [rows.Next()] fails after the first row.  The code takes the end of
    the loop for the end of the rows: it commits a snapshot that counts
    one event and logs success; the error is logged nowhere. *)
Theorem CreateAggregate_commits_after_iteration_error :
  let w := snd (run [(PostAdd, quiet (clock 1) 0); (PostAdd, quiet (clock 2) 0)]
                  migrated) in
  let w' := main.CreateAggregate (iteration_fails 1 (clock 3)) w in
  next_err (iteration_fails 1 (clock 3)) 1%nat = Some locked /\
  option_map (fun t => map store.count (store.rows t)) (store.counter (db w))
    = Some [1; 1] /\
  option_map store.rows (store.counter_aggregate (db w)) = Some [] /\
  option_map store.rows (store.counter_aggregate (db w'))
    = Some [store.mkAggregate 1 (clock 3)] /\
  logged w' = ["Aggregate created, with counts: 1"].
Proof. repeat split. Qed.

(** [CreateAggregate] returns with its connection given back and with no
    transaction of its own left open; on the paths where the code calls
    neither [Commit] nor [Rollback] (a failed query, a failed [Scan]) it
    is [Close] that waits for the end of the transaction. *)
Lemma CreateAggregate_releases (env : Env) (w : World) :
  let w' := main.CreateAggregate env w in
  conns w' = conns w /\ open_txs w' = open_txs w.
Proof.
  unfold main.CreateAggregate, main.deferred_close, main.deferred_rows_close,
    Conn, BeginTx, QueryContext, ExecContext, Commit, Rollback, Close,
    store.select_count, store.insert_counter_aggregate, log.Println, log.Printf_d.
  destruct w as [d c o l g]; cbn [db conns open_txs logged goroutines done view].
  destruct (conn_err env) as [e1|]; [split; reflexivity|].
  destruct (begin_err env) as [e2|].
  { destruct (close_err env); split; reflexivity. }
  cbn [db conns open_txs logged goroutines done view].
  destruct (query_err env) as [e3|].
  { destruct (close_err env); split; reflexivity. }
  destruct (store.counter d) as [te|].
  2:{ destruct (close_err env); split; reflexivity. }
  destruct (main.scan_rows env 0 (map store.count (store.rows te)) 0) as [e4|counts].
  { destruct (rows_close_err env), (close_err env); split; reflexivity. }
  destruct (exec_err env 0%nat) as [e5|].
  { destruct (rollback_err env), (rows_close_err env), (close_err env);
      split; reflexivity. }
  destruct (store.counter_aggregate d) as [ta|].
  2:{ destruct (rollback_err env), (rows_close_err env), (close_err env);
      split; reflexivity. }
  cbn [db conns open_txs logged goroutines done view].
  destruct (commit_err env) as [e6|];
    destruct (rows_close_err env), (close_err env); split; reflexivity.
Qed.

(** The other operations end their transaction on every path: after
    [Migrate], [Add] and [List] no more transactions are open and no more
    connections are out than before. *)
Lemma other_operations_release (env : Env) (w : World) :
  (open_txs (snd (main.Migrate env w)) = open_txs w /\
   conns (snd (main.Migrate env w)) = conns w) /\
  (open_txs (snd (main.Add env http.NewResponse w)) = open_txs w /\
   conns (snd (main.Add env http.NewResponse w)) = conns w) /\
  (open_txs (snd (main.List env http.NewResponse w)) = open_txs w /\
   conns (snd (main.List env http.NewResponse w)) = conns w).
Proof.
  split; [|split].
  - destruct (Migrate_cases env w) as (_ & Ht & Hc & _). auto.
  - destruct (Add_cases env w) as [(_ & _ & _ & Ht & Hc & _)
                                  | (_ & _ & _ & Ht & Hc & _)]; auto.
  - destruct (List_frame env http.NewResponse w) as (_ & Ht & Hc & _). auto.
Qed.

(** C9. Every operation gives back its connection and leaves no
    transaction behind, on every path and with every failure: after
    [Migrate], [Add], [List] and [CreateAggregate] as many connections
    are out of the pool, and as many transactions neither committed nor
    rolled back, as before. *)
Theorem operations_release_connection_and_transaction
    (env : Env) (rw : http.ResponseWriter) (w : World) :
  (conns (snd (main.Migrate env w)) = conns w /\
   open_txs (snd (main.Migrate env w)) = open_txs w) /\
  (conns (snd (main.Add env rw w)) = conns w /\
   open_txs (snd (main.Add env rw w)) = open_txs w) /\
  (conns (snd (main.List env rw w)) = conns w /\
   open_txs (snd (main.List env rw w)) = open_txs w) /\
  (conns (main.CreateAggregate env w) = conns w /\
   open_txs (main.CreateAggregate env w) = open_txs w).
Proof.
  split; [|split; [|split]].
  - destruct (Migrate_cases env w) as (_ & Ht & Hc & _). auto.
  - unfold main.Add, main.deferred_close_Add, Conn, BeginTx, ExecContext, Commit,
      Rollback, Close, main.go_CreateAggregate, log.Println.
    destruct w as [d c o l g]; cbn [db conns open_txs logged goroutines].
    destruct (conn_err env); [split; reflexivity|].
    destruct (begin_err env).
    { destruct (close_err env) as [ec|]; [destruct (Go.is_ErrConnDone ec)|];
        split; reflexivity. }
    cbn [done view db conns open_txs logged goroutines].
    destruct (exec_err env 0%nat).
    { destruct (rollback_err env);
        (destruct (close_err env) as [ec|]; [destruct (Go.is_ErrConnDone ec)|]);
        split; reflexivity. }
    destruct (store.insert_counter 1 (now env) d).
    { destruct (rollback_err env);
        (destruct (close_err env) as [ec|]; [destruct (Go.is_ErrConnDone ec)|]);
        split; reflexivity. }
    cbn [done view db conns open_txs logged goroutines].
    destruct (commit_err env);
      (destruct (close_err env) as [ec|]; [destruct (Go.is_ErrConnDone ec)|]);
      split; reflexivity.
  - destruct (List_frame env rw w) as (_ & Ht & Hc & _). auto.
  - exact (CreateAggregate_releases env w).
Qed.

(** C7 at a failing input. Two events are recorded and aggregated, and a
    read reports 2.  The second aggregation's [rows.Next()] fails at the
    first row; the code commits a snapshot of 0 with a later timestamp,
    and the next read reports 0. *)
Theorem counter_decreases_after_iteration_error :
  map http.body
    (fst (run [(PostAdd, quiet (clock 1) 0);
               (PostAdd, quiet (clock 2) 0);
               (RunCreateAggregate, quiet (clock 3) 0);
               (GetList, quiet (clock 4) 0);
               (RunCreateAggregate, iteration_fails 0 (clock 5));
               (GetList, quiet (clock 6) 0)]
            migrated))
  = [main.success_body;
     main.success_body;
     "{" ++ Go.dq ++ "counter" ++ Go.dq ++ ":2," ++ Go.dq ++ "lastDate" ++ Go.dq ++ ":"
       ++ Go.dq ++ "2023-11-14T22:13:23Z" ++ Go.dq ++ "}";
     "{" ++ Go.dq ++ "counter" ++ Go.dq ++ ":0," ++ Go.dq ++ "lastDate" ++ Go.dq ++ ":"
       ++ Go.dq ++ "2023-11-14T22:13:25Z" ++ Go.dq ++ "}"].
Proof. vm_compute. reflexivity. Qed.

(** The scenario of a new store: a read, an event, its aggregation three
    seconds later, a read. *)
Example scenario_new_store :
  map http.body
    (fst (run [(GetList, quiet (clock 0) 0);
               (PostAdd, quiet (clock 1) 0);
               (RunCreateAggregate, quiet (clock 3) 0);
               (GetList, quiet (clock 4) 0)]
            migrated))
  = ["{" ++ Go.dq ++ "counter" ++ Go.dq ++ ":0," ++ Go.dq ++ "lastDate" ++ Go.dq ++ ":"
       ++ Go.dq ++ "1970-01-01T00:00:00Z" ++ Go.dq ++ "}";
     main.success_body;
     "{" ++ Go.dq ++ "counter" ++ Go.dq ++ ":1," ++ Go.dq ++ "lastDate" ++ Go.dq ++ ":"
       ++ Go.dq ++ "2023-11-14T22:13:23Z" ++ Go.dq ++ "}"].
Proof. vm_compute. reflexivity. Qed.

(** ** The counter across reads *)

(** Without an iteration error the loop comes out with the sum of all
    rows or with an error. *)
Lemma scan_rows_complete (env : Env) :
  (forall n, next_err env n = None) ->
  forall rows n counts total,
    main.scan_rows env n rows counts = inr total ->
    total = fold_left Go.int_add rows counts.
Proof.
  intros Hn rows. induction rows as [|count rest IH]; intros n counts total H.
  - cbn in H. injection H as <-. reflexivity.
  - cbn in H. rewrite Hn in H. destruct (scan_err env n); [discriminate|].
    cbn. exact (IH _ _ _ H).
Qed.

Lemma sum_of_counts_1 (l : list store.Event) :
  Forall (fun e => store.count e = 1) l ->
  forall counts,
    0 <= counts -> counts + Z.of_nat (List.length l) <= Go.int_max ->
    fold_left Go.int_add (map store.count l) counts
    = counts + Z.of_nat (List.length l).
Proof.
  induction 1 as [|e l He Hl IH]; intros counts H0 Hmax.
  - cbn. lia.
  - cbn [map fold_left List.length] in *. rewrite He.
    rewrite int_add_small by (unfold Go.int_min, Go.int_max in *; lia).
    rewrite IH by lia. lia.
Qed.

(** The first row of the sorted table, when one more row is appended:
    the new row if its stored value is strictly greater than that of the
    old first row, else the old first row. *)
Lemma hd_insert_desc a s :
  hd_error (store.insert_desc a s) =
    match hd_error s with
    | None => Some a
    | Some b =>
        if store.datetime_leb (store.agg_created_at b) (store.agg_created_at a)
        then Some a else Some b
    end.
Proof.
  destruct s as [|b s]; cbn; [reflexivity|].
  destruct (store.datetime_leb _ _); reflexivity.
Qed.

Lemma hd_order_app (l : list store.Aggregate) (a : store.Aggregate) :
  hd_error (store.order_by_created_at_desc (l ++ [a])) =
    match hd_error (store.order_by_created_at_desc l) with
    | None => Some a
    | Some m =>
        if store.datetime_leb (store.agg_created_at a) (store.agg_created_at m)
        then Some m else Some a
    end.
Proof.
  induction l as [|x l IH]; [reflexivity|].
  cbn [app store.order_by_created_at_desc fold_right].
  fold (store.order_by_created_at_desc (l ++ [a])).
  fold (store.order_by_created_at_desc l).
  rewrite !hd_insert_desc, IH.
  destruct (hd_error (store.order_by_created_at_desc l)) as [m|]; [|reflexivity].
  destruct (store.datetime_leb (store.agg_created_at a) (store.agg_created_at m))
    eqn:Ham;
    destruct (store.datetime_leb (store.agg_created_at m) (store.agg_created_at x))
      eqn:Hmx;
    rewrite ?Ham; try reflexivity.
  - rewrite (datetime_leb_trans _ _ _ Ham Hmx). reflexivity.
  - destruct (store.datetime_leb (store.agg_created_at a) (store.agg_created_at x))
      eqn:Hax; [|reflexivity].
    exfalso.
    pose proof (datetime_leb_total _ _ Hmx) as Hxm.
    rewrite (datetime_leb_trans _ _ _ Hax Hxm) in Ham. discriminate.
Qed.

Lemma reported_hd (d : store.Database) ta :
  store.counter_aggregate d = Some ta ->
  reported d =
    match hd_error (store.order_by_created_at_desc (store.rows ta)) with
    | Some row => store.counts row
    | None => 0
    end.
Proof.
  intros H. unfold reported, store.select_latest. rewrite H.
  destruct (store.order_by_created_at_desc (store.rows ta)); reflexivity.
Qed.

(** One call whose row iteration does not fail keeps the store
    consistent, adds at most one event, and does not lower the counter
    that [List] reports. *)
Lemma serve_keeps_counter (c : Call) (env : Env) (w : World) :
  consistent (db w) ->
  Z.of_nat (events (db w)) < Go.int_max ->
  (forall n, next_err env n = None) ->
  let w' := snd (serve c env w) in
  consistent (db w') /\
  (events (db w') <= S (events (db w)))%nat /\
  reported (db w) <= reported (db w').
Proof.
  intros Hcons Hmax Hnext w'. subst w'.
  destruct c; cbn [serve].
  - (* POST /api/add *)
    pose proof (Add_cases env w) as Hcases. cbn zeta in Hcases.
    destruct (main.Add env http.NewResponse w) as [rw w1]. cbn [fst snd] in *.
    destruct Hcases as [(_ & _ & Hdb & _) | (_ & _ & (tbl & Htbl & Hdb) & _)].
    + rewrite Hdb. repeat split; [assumption | lia | lia].
    + destruct Hcons as (te & ta & Hte & Hta & Hones & Hbound).
      rewrite Hte in Htbl. injection Htbl as <-.
      rewrite Hdb. split; [|split].
      * exists (store.mkTable (store.columns te)
                  (store.rows te ++ [store.mkEvent 1 (now env)])), ta.
        cbn [store.counter store.counter_aggregate store.rows].
        repeat split; [assumption | |].
        -- apply Forall_app. split; [assumption|]. repeat constructor.
        -- eapply Forall_impl; [|exact Hbound]. cbn beta. intros a Ha.
           rewrite length_app. cbn [List.length]. lia.
      * unfold events. rewrite Hte. cbn [store.counter store.rows].
        rewrite length_app. cbn [List.length]. lia.
      * unfold reported, store.select_latest. cbn [store.counter_aggregate]. lia.
  - (* GET /api/list *)
    destruct (List_frame env http.NewResponse w) as (Hdb & _).
    destruct (main.List env http.NewResponse w) as [rw w1]. cbn [fst snd] in *.
    rewrite Hdb. repeat split; [assumption | lia | lia].
  - (* a goroutine running CreateAggregate *)
    cbn [snd db].
    destruct (CreateAggregate_cases env w)
      as [(Hdb & _) | (te & ta & counts & Hte & Hta & Hscan & Hdb & _)].
    + rewrite Hdb. repeat split; [assumption | lia | lia].
    + destruct Hcons as (te' & ta' & Hte' & Hta' & Hones & Hbound).
      rewrite Hte in Hte'. injection Hte' as <-.
      rewrite Hta in Hta'. injection Hta' as <-.
      apply (scan_rows_complete env Hnext) in Hscan.
      assert (Hlen : Z.of_nat (events (db w)) = Z.of_nat (List.length (store.rows te))).
      { unfold events. rewrite Hte. reflexivity. }
      rewrite sum_of_counts_1 in Hscan by (try assumption; lia).
      cbn [Z.add] in Hscan.
      rewrite Hdb. split; [|split].
      * exists te, (store.mkTable (store.columns ta)
                      (store.rows ta ++ [store.mkAggregate counts (now env)])).
        cbn [store.counter store.counter_aggregate store.rows].
        repeat split; [assumption|].
        apply Forall_app. split; [assumption|].
        constructor; [|constructor]. cbn [store.counts]. lia.
      * unfold events. rewrite Hte. cbn [store.counter]. lia.
      * rewrite (reported_hd (db w) ta Hta).
        erewrite reported_hd by reflexivity.
        cbn [store.rows]. rewrite hd_order_app.
        destruct (store.order_by_created_at_desc (store.rows ta)) as [|m rest] eqn:E;
          cbn [hd_error store.counts].
        -- lia.
        -- destruct (order_by_created_at_desc_head _ _ _ E) as [Hin _].
           rewrite Forall_forall in Hbound. specialize (Hbound m Hin).
           destruct (store.datetime_leb _ _); cbn [store.counts]; lia.
Qed.

(** The same along a schedule. *)
Lemma run_keeps_counter (sched : list (Call * Env)) :
  forall w,
    consistent (db w) ->
    Z.of_nat (events (db w)) + Z.of_nat (List.length sched) <= Go.int_max ->
    Forall (fun ce => forall n, next_err (snd ce) n = None) sched ->
    let w' := snd (run sched w) in
    consistent (db w') /\ reported (db w) <= reported (db w').
Proof.
  induction sched as [|[c env] rest IH]; intros w Hcons Hmax Hall.
  - cbn. split; [assumption | lia].
  - inversion Hall as [|? ? Hnext Hrest]; subst. cbn [snd] in Hnext.
    cbn [List.length] in Hmax.
    destruct (serve_keeps_counter c env w Hcons ltac:(lia) Hnext)
      as (Hcons1 & Hev & Hrep).
    cbn [run].
    destruct (serve c env w) as [r w1]. cbn [snd] in *.
    specialize (IH w1 Hcons1 ltac:(lia) Hrest).
    destruct (run rest w1) as [rs w2]. cbn [snd] in *.
    destruct IH as [Hcons2 Hrep2]. split; [assumption | lia].
Qed.

(** As long as no aggregation meets an iteration error, the counter that
    [List] reports never goes down, whatever is served in between. *)
Lemma counter_monotone_without_iteration_errors
    (before between : list (Call * Env)) :
  Z.of_nat (List.length before) + Z.of_nat (List.length between) <= Go.int_max ->
  Forall (fun ce => forall n, next_err (snd ce) n = None) (before ++ between) ->
  let w1 := snd (run before migrated) in
  let w2 := snd (run between w1) in
  reported (db w1) <= reported (db w2).
Proof.
  intros Hmax Hall w1 w2.
  apply Forall_app in Hall. destruct Hall as [Hb Hbt].
  assert (Hmig : consistent (db migrated)).
  { eexists _, _. cbn. repeat split; constructor. }
  assert (Hev : forall sched w,
             (events (db (snd (run sched w))) <= events (db w) + List.length sched)%nat).
  { induction sched as [|[c env] rest IH]; intros w; [cbn; lia|].
    cbn [run List.length].
    assert (H1 : (events (db (snd (serve c env w))) <= S (events (db w)))%nat).
    { destruct c; cbn [serve].
      - pose proof (Add_cases env w) as Hc. cbn zeta in Hc.
        destruct (main.Add env http.NewResponse w) as [rw w']. cbn [fst snd] in *.
        destruct Hc as [(_ & _ & Hdb & _) | (_ & _ & (tbl & Htbl & Hdb) & _)];
          rewrite Hdb; [lia|].
        unfold events. rewrite Htbl. cbn [store.counter store.rows].
        rewrite length_app. cbn. lia.
      - destruct (List_frame env http.NewResponse w) as (Hdb & _).
        destruct (main.List env http.NewResponse w) as [rw w']. cbn [fst snd] in *.
        rewrite Hdb. lia.
      - cbn [snd db].
        destruct (CreateAggregate_cases env w)
          as [(Hdb & _) | (te & ta & counts & Hte & _ & _ & Hdb & _)];
          rewrite Hdb; [lia|].
        unfold events. rewrite Hte. cbn. lia. }
    destruct (serve c env w) as [r w']. cbn [snd] in *.
    specialize (IH w'). destruct (run rest w') as [rs w'']. cbn [snd] in *. lia. }
  destruct (run_keeps_counter before migrated Hmig) as [Hcons1 _];
    [change (events (db migrated)) with 0%nat; lia | assumption |].
  fold w1 in Hcons1.
  pose proof (Hev before migrated) as Hev1. fold w1 in Hev1.
  change (events (db migrated)) with 0%nat in Hev1.
  destruct (run_keeps_counter between w1 Hcons1) as [_ Hrep];
    [lia | assumption |].
  exact Hrep.
Qed.

(** * Further properties of the operations *)

(** ** Migrate *)

Lemma Migrate_nil_inv (env : Env) (w : World) :
  fst (main.Migrate env w) = None ->
  conn_err env = None /\ begin_err env = None /\
  exec_err env 0%nat = None /\ exec_err env 1%nat = None /\
  commit_err env = None.
Proof.
  unfold main.Migrate, main.deferred_close, Conn, BeginTx, ExecContext, Commit,
    Rollback, Close.
  destruct (conn_err env); [discriminate|].
  destruct (begin_err env); [discriminate|].
  cbn [done view db conns open_txs logged goroutines].
  destruct (exec_err env 0%nat).
  { destruct (rollback_err env); discriminate. }
  cbn [done view db conns open_txs logged goroutines].
  destruct (exec_err env 1%nat).
  { destruct (rollback_err env); discriminate. }
  cbn [done view db conns open_txs logged goroutines].
  destruct (commit_err env); [discriminate|]. auto.
Qed.

(** X1. When a step of [Migrate] fails (connection, transaction, either
    [CREATE TABLE], commit), [Migrate] returns an error and the database
    is what it was: no table is created, also not the first one when it
    is the second statement or the commit that fails. *)
Theorem Migrate_failure_creates_nothing (env : Env) (w : World) :
  conn_err env <> None \/ begin_err env <> None \/
  exec_err env 0%nat <> None \/ exec_err env 1%nat <> None \/
  commit_err env <> None ->
  (exists err, fst (main.Migrate env w) = Some err) /\
  db (snd (main.Migrate env w)) = db w.
Proof.
  intros Hfail.
  destruct (Migrate_cases env w) as [[H | [Hnil _]] _]; [exact H|].
  exfalso. destruct (Migrate_nil_inv env w Hnil) as (H1 & H2 & H3 & H4 & H5).
  destruct Hfail as [H | [H | [H | [H | H]]]]; contradiction.
Qed.

Lemma Migrate_failure_creates_nothing_witness :
  let env := mkEnv None None None
               (fun n => if Nat.eqb n 1 then Some locked else None)
               None (fun _ => None) (fun _ => None) None None None (clock 0) 0 in
  (exists err, fst (main.Migrate env boot) = Some err) /\
  db (snd (main.Migrate env boot)) = store.empty.
Proof.
  intros env.
  apply (Migrate_failure_creates_nothing env boot).
  do 3 right. left. cbn. discriminate.
Defined.

(** X2. [Migrate] keeps what is there: a table that exists before is the
    same after, columns and rows, whether [Migrate] succeeds or fails.
    After a success both tables exist, and a table that was missing is
    empty with the two columns of its [CREATE TABLE]. *)
Theorem Migrate_keeps_existing_tables (env : Env) (w : World) :
  let r := main.Migrate env w in
  (forall te, store.counter (db w) = Some te ->
     store.counter (db (snd r)) = Some te) /\
  (forall ta, store.counter_aggregate (db w) = Some ta ->
     store.counter_aggregate (db (snd r)) = Some ta) /\
  (fst r = None ->
   exists te ta,
     store.counter (db (snd r)) = Some te /\
     store.counter_aggregate (db (snd r)) = Some ta /\
     (store.counter (db w) = None ->
      te = store.mkTable [store.mkColumn "count" store.INTEGER true;
                          store.mkColumn "created_at" store.DATETIME true] []) /\
     (store.counter_aggregate (db w) = None ->
      ta = store.mkTable [store.mkColumn "counts" store.INTEGER true;
                          store.mkColumn "created_at" store.DATETIME true] [])).
Proof.
  cbn zeta.
  destruct (Migrate_cases env w) as [[[[err He] Hdb] | [Hnil Hdb]] _];
    rewrite Hdb.
  - split; [auto|]. split; [auto|]. rewrite He. discriminate.
  - destruct (db w) as [[te|] [ta|]]; cbn;
      (split; [intros ? H; first [exact H | discriminate]|]);
      (split; [intros ? H; first [exact H | discriminate]|]);
      intros _; eexists _, _; (split; [reflexivity|]); (split; [reflexivity|]);
      split; intros H; first [reflexivity | discriminate].
Qed.

(** X3. When a [CREATE TABLE] of [Migrate] fails, the error returned is
    that of [tx.Rollback()] if the rollback fails as well, and that of the
    statement otherwise. *)
Theorem Migrate_returns_rollback_error (env : Env) (w : World) (err : Go.error) :
  conn_err env = None -> begin_err env = None ->
  exec_err env 0%nat = Some err \/
  (exec_err env 0%nat = None /\ exec_err env 1%nat = Some err) ->
  fst (main.Migrate env w) =
    Some (match rollback_err env with Some e => e | None => err end).
Proof.
  intros Hc Hb Hexec.
  unfold main.Migrate, main.deferred_close, Conn, BeginTx, ExecContext, Commit,
    Rollback, Close.
  rewrite Hc, Hb. cbn [done view db conns open_txs logged goroutines].
  destruct Hexec as [H0 | [H0 H1]]; rewrite H0;
    cbn [done view db conns open_txs logged goroutines]; [|rewrite H1];
    destruct (rollback_err env); reflexivity.
Qed.

Lemma Migrate_returns_rollback_error_witness :
  let env := mkEnv None None None
               (fun n => if Nat.eqb n 0 then Some locked else None)
               None (fun _ => None) (fun _ => None) None
               (Some (Go.DriverError "cannot rollback - no transaction is active"))
               None (clock 0) 0 in
  fst (main.Migrate env boot)
  = Some (Go.DriverError "cannot rollback - no transaction is active").
Proof.
  intros env.
  apply (Migrate_returns_rollback_error env boot locked eq_refl eq_refl).
  left. reflexivity.
Defined.

(** ** The responses of the handlers *)

Lemma Add_response (env : Env) (w : World) :
  fst (main.Add env http.NewResponse w) =
    match Add_first_error env w with
    | Some err => main.write_error err http.NewResponse
    | None => main.write_ok main.success_body http.NewResponse
    end.
Proof.
  unfold Add_first_error, main.Add, main.deferred_close_Add, Conn, BeginTx,
    ExecContext, Commit, Rollback, Close.
  destruct (conn_err env); [reflexivity|].
  destruct (begin_err env); [reflexivity|].
  cbn [done view db conns open_txs logged goroutines].
  destruct (exec_err env 0%nat).
  { destruct (rollback_err env); reflexivity. }
  destruct (store.insert_counter 1 (now env) (db w)).
  { destruct (rollback_err env); reflexivity. }
  cbn [done view db conns open_txs logged goroutines].
  destruct (commit_err env); reflexivity.
Qed.

(** X4. The response of [Add] is decided by the first step that fails,
    in the order connection, transaction, insert, commit: status 500 and
    the JSON object [{"error": ...}] with that error's quoted text, or
    status 200 and [{"message":"success"}] when none fails.  What
    [tx.Rollback()] and [conn.Close()] return never reaches the client. *)
Theorem Add_answers_first_error (env : Env) (w : World) :
  let rw := fst (main.Add env http.NewResponse w) in
  http.Header rw = [("Content-Type", "application/json")] /\
  match Add_first_error env w with
  | Some err =>
      http.status rw = Some 500 /\
      (Go.is_ascii (Go.Error err) = true ->
       http.body rw =
         "{" ++ Go.dq ++ "error" ++ Go.dq ++ ":" ++ Go.Quote (Go.Error err) ++ "}") /\
      (Go.is_plain (Go.Error err) = true ->
       http.body rw =
         "{" ++ Go.dq ++ "error" ++ Go.dq ++ ":"
           ++ Go.dq ++ Go.Error err ++ Go.dq ++ "}")
  | None =>
      http.status rw = Some 200 /\
      http.body rw =
        "{" ++ Go.dq ++ "message" ++ Go.dq ++ ":" ++ Go.dq ++ "success" ++ Go.dq ++ "}"
  end.
Proof.
  cbn zeta. rewrite Add_response.
  destruct (Add_first_error env w) as [err|].
  - split; [reflexivity|]. split; [reflexivity|]. split.
    + intros _. rewrite write_error_spelled. reflexivity.
    + intros Hplain. rewrite (write_error_plain err Hplain). reflexivity.
  - repeat split.
Qed.

Lemma Add_answers_first_error_witness :
  let env := mkEnv None (Some (Go.DriverError "close failed"))
               (Some (Go.DriverError "cannot start a transaction"))
               (fun _ => Some (Go.DriverError "disk I/O error"))
               None (fun _ => None) (fun _ => None) None
               (Some (Go.DriverError "rollback failed"))
               (Some locked) (clock 1) 0 in
  fst (main.Add env http.NewResponse migrated) =
    http.mkResponseWriter [("Content-Type", "application/json")] (Some 500)
      ("{" ++ Go.dq ++ "error" ++ Go.dq ++ ":"
         ++ Go.dq ++ "cannot start a transaction" ++ Go.dq ++ "}").
Proof.
  intros env.
  pose proof (Add_answers_first_error env migrated) as H. cbn zeta in H.
  change (Add_first_error env migrated)
    with (Some (Go.DriverError "cannot start a transaction")) in H.
  destruct H as (Hh & Hs & _ & Hb). specialize (Hb eq_refl).
  destruct (fst (main.Add env http.NewResponse migrated)) as [h st b].
  cbn [http.Header http.status http.body] in *. subst. reflexivity.
Defined.

Lemma List_response (env : Env) (w : World) :
  match List_error env w with
  | Some err => fst (main.List env http.NewResponse w)
                = main.write_error err http.NewResponse
  | None => http.status (fst (main.List env http.NewResponse w)) = Some 200
  end.
Proof.
  unfold List_error, main.List, Conn.
  destruct (conn_err env); [reflexivity|].
  cbn [fst db conns open_txs logged goroutines].
  replace (QueryRowContext_Scan env store.select_latest
             (mkWorld (db w) (S (conns w)) (open_txs w) (logged w) (goroutines w)))
    with (QueryRowContext_Scan env store.select_latest w) by reflexivity.
  destruct (QueryRowContext_Scan env store.select_latest w) as [err|row].
  - destruct (Go.is_ErrNoRows err); reflexivity.
  - reflexivity.
Qed.

(** X5. [List] answers status 500 and the JSON object [{"error": ...}]
    with the error's quoted text when the connection cannot be taken or
    the query fails with anything but [sql.ErrNoRows] (a missing table
    included), and status 200 otherwise. *)
Theorem List_answers_its_error (env : Env) (w : World) :
  let rw := fst (main.List env http.NewResponse w) in
  match List_error env w with
  | Some err =>
      http.status rw = Some 500 /\
      http.Header rw = [("Content-Type", "application/json")] /\
      (Go.is_ascii (Go.Error err) = true ->
       http.body rw =
         "{" ++ Go.dq ++ "error" ++ Go.dq ++ ":" ++ Go.Quote (Go.Error err) ++ "}") /\
      (Go.is_plain (Go.Error err) = true ->
       http.body rw =
         "{" ++ Go.dq ++ "error" ++ Go.dq ++ ":"
           ++ Go.dq ++ Go.Error err ++ Go.dq ++ "}")
  | None => http.status rw = Some 200
  end.
Proof.
  cbn zeta. pose proof (List_response env w) as H.
  destruct (List_error env w) as [err|]; [|exact H].
  rewrite H. split; [reflexivity|]. split; [reflexivity|]. split.
  - intros _. rewrite write_error_spelled. reflexivity.
  - intros Hplain. rewrite (write_error_plain err Hplain). reflexivity.
Qed.

Lemma List_answers_its_error_witness :
  let w := mkWorld (store.mkDatabase (Some (store.mkTable [] [])) None) 0 0 [] 0 in
  fst (main.List (quiet (clock 1) 0) http.NewResponse w) =
    http.mkResponseWriter [("Content-Type", "application/json")] (Some 500)
      ("{" ++ Go.dq ++ "error" ++ Go.dq ++ ":"
         ++ Go.dq ++ "no such table: counter_aggregate" ++ Go.dq ++ "}").
Proof.
  intros w.
  pose proof (List_answers_its_error (quiet (clock 1) 0) w) as H. cbn zeta in H.
  change (List_error (quiet (clock 1) 0) w)
    with (Some (store.no_such_table "counter_aggregate")) in H.
  destruct H as (Hs & Hh & _ & Hb). specialize (Hb eq_refl).
  destruct (fst (main.List (quiet (clock 1) 0) http.NewResponse w)) as [h st b].
  cbn [http.Header http.status http.body] in *. subst. reflexivity.
Defined.

(** X6. Every response of [Add] and of [List] has status 200 or 500 and
    one header, [Content-Type: application/json]. *)
Theorem handlers_answer_json (env : Env) (w : World) :
  let a := fst (main.Add env http.NewResponse w) in
  let l := fst (main.List env http.NewResponse w) in
  (http.Header a = [("Content-Type", "application/json")] /\
   (http.status a = Some 200 \/ http.status a = Some 500)) /\
  (http.Header l = [("Content-Type", "application/json")] /\
   (http.status l = Some 200 \/ http.status l = Some 500)).
Proof.
  cbn zeta. split.
  - rewrite Add_response.
    destruct (Add_first_error env w); cbn; auto.
  - unfold main.List, Conn.
    destruct (conn_err env); [cbn; auto|].
    cbn [fst].
    destruct (QueryRowContext_Scan env store.select_latest _) as [err|row].
    + destruct (Go.is_ErrNoRows err); cbn; auto.
    + cbn; auto.
Qed.

(** ** What is logged *)

(** X7. The handlers log nothing of what they answer: [Add] and [List]
    add a line to the log only when the [Close] of their connection
    returns an error, and [Add] not even then when the error is
    [sql.ErrConnDone]. *)
Theorem handlers_log_only_close_errors (env : Env) (w : World) :
  logged (snd (main.Add env http.NewResponse w)) =
    (logged w ++
       match conn_err env, close_err env with
       | None, Some err => if Go.is_ErrConnDone err then [] else [Go.Error err]
       | _, _ => []
       end)%list /\
  logged (snd (main.List env http.NewResponse w)) =
    (logged w ++
       match conn_err env, close_err env with
       | None, Some err => [Go.Error err]
       | _, _ => []
       end)%list.
Proof.
  split.
  - unfold main.Add, main.deferred_close_Add, Conn, BeginTx, ExecContext, Commit,
      Rollback, Close, main.go_CreateAggregate, log.Println.
    destruct (conn_err env); [cbn; rewrite app_nil_r; reflexivity|].
    destruct (begin_err env).
    { destruct (close_err env) as [ec|]; [destruct (Go.is_ErrConnDone ec)|];
        cbn; rewrite ?app_nil_r; reflexivity. }
    cbn [done view db conns open_txs logged goroutines].
    destruct (exec_err env 0%nat).
    { destruct (rollback_err env);
        (destruct (close_err env) as [ec|]; [destruct (Go.is_ErrConnDone ec)|]);
        cbn; rewrite ?app_nil_r; reflexivity. }
    destruct (store.insert_counter 1 (now env) (db w)).
    { destruct (rollback_err env);
        (destruct (close_err env) as [ec|]; [destruct (Go.is_ErrConnDone ec)|]);
        cbn; rewrite ?app_nil_r; reflexivity. }
    cbn [done view db conns open_txs logged goroutines].
    destruct (commit_err env);
      (destruct (close_err env) as [ec|]; [destruct (Go.is_ErrConnDone ec)|]);
      cbn; rewrite ?app_nil_r; reflexivity.
  - unfold main.List, main.deferred_close, Conn, Close, log.Println.
    destruct (conn_err env); [cbn; rewrite app_nil_r; reflexivity|].
    destruct (close_err env); cbn; rewrite ?app_nil_r; reflexivity.
Qed.

(** X8. Every run of [CreateAggregate] leaves [counter] alone and says in
    the log how it ended: either it logs an error and the database is
    what it was, or it appends one row to [counter_aggregate], stamped
    with the clock, and logs the success line with that row's [counts]. *)
Theorem CreateAggregate_logs_its_outcome (env : Env) (w : World) :
  let w' := main.CreateAggregate env w in
  store.counter (db w') = store.counter (db w) /\
  ((db w' = db w /\
    exists err rest, logged w' = (logged w ++ Go.Error err :: rest)%list)
   \/
   (exists ta counts rest,
      store.counter_aggregate (db w) = Some ta /\
      store.counter_aggregate (db w') =
        Some (store.mkTable (store.columns ta)
                (store.rows ta ++ [store.mkAggregate counts (now env)])) /\
      logged w' =
        (logged w ++
           ("Aggregate created, with counts: " ++ Go.itoa counts)%string :: rest)%list)).
Proof.
  cbn zeta.
  destruct (CreateAggregate_cases env w)
    as [(Hdb & err & rest & _ & Hlog)
       | (te & ta & counts & Hte & Hta & _ & Hdb & _ & _ & rest & Hlog)].
  - rewrite Hdb. split; [reflexivity|]. left. split; [reflexivity|]. eauto.
  - rewrite Hdb. cbn [store.counter store.counter_aggregate].
    split; [symmetry; exact Hte|]. right. exists ta, counts, rest. auto.
Qed.

(** X9. An error that reaches the code of [CreateAggregate] (from the
    connection, the transaction, the query, a [Scan], the insert or the
    commit) is logged, and the database is what it was. *)
Theorem CreateAggregate_aborts_on_noticed_error (env : Env) (w : World) :
  (exists err, CreateAggregate_step_error env w err) ->
  let w' := main.CreateAggregate env w in
  db w' = db w /\
  exists err rest,
    CreateAggregate_step_error env w err /\
    logged w' = (logged w ++ Go.Error err :: rest)%list.
Proof. exact (CreateAggregate_noticed_error_writes_nothing env w). Qed.

Lemma CreateAggregate_aborts_on_noticed_error_witness :
  let env := mkEnv None None None (fun _ => None) None (fun _ => None)
               (fun _ => None) None None (Some locked) (clock 2) 0 in
  let w := snd (run [(PostAdd, quiet (clock 1) 0)] migrated) in
  db (main.CreateAggregate env w) = db w.
Proof.
  intros env w.
  assert (H : exists err, CreateAggregate_step_error env w err).
  { exists locked. unfold CreateAggregate_step_error. do 6 right. reflexivity. }
  exact (proj1 (CreateAggregate_aborts_on_noticed_error env w H)).
Defined.

(** ** The sum of an aggregation *)

Lemma wrap_int_add_l (a b : Z) :
  Go.wrap_int (Go.wrap_int a + b) = Go.wrap_int (a + b).
Proof.
  unfold Go.wrap_int. f_equal.
  replace ((a + 2 ^ 63) mod 2 ^ 64 - 2 ^ 63 + b + 2 ^ 63)
    with ((a + 2 ^ 63) mod 2 ^ 64 + b) by lia.
  rewrite Zplus_mod_idemp_l. f_equal. lia.
Qed.

Lemma fold_int_add_wraps (l : list Z) :
  forall a,
    fold_left Go.int_add l (Go.wrap_int a)
    = Go.wrap_int (a + fold_right Z.add 0 l).
Proof.
  induction l as [|x l IH]; intros a; cbn [fold_left fold_right].
  - f_equal. lia.
  - unfold Go.int_add at 2. rewrite wrap_int_add_l, IH. f_equal. lia.
Qed.

(** X10. Whatever the rows of [counter] hold, a run of [CreateAggregate]
    in which no call fails commits the sum of the [count] column wrapped
    to the 64 bits of [int]: the sum itself when it is within range. *)
Theorem CreateAggregate_commits_wrapped_sum (env : Env) (w : World) te ta :
  runs_clean env ->
  store.counter (db w) = Some te ->
  store.counter_aggregate (db w) = Some ta ->
  let total := sum_counts (store.rows te) in
  store.counter_aggregate (db (main.CreateAggregate env w)) =
    Some (store.mkTable (store.columns ta)
            (store.rows ta ++ [store.mkAggregate (Go.wrap_int total) (now env)])) /\
  (Go.int_min <= total <= Go.int_max -> Go.wrap_int total = total).
Proof.
  intros Hclean Hte Hta total.
  rewrite (CreateAggregate_clean env w te ta Hclean Hte Hta).
  cbn [store.counter_aggregate]. split; [|apply wrap_int_small].
  change 0 with (Go.wrap_int 0) at 1.
  rewrite fold_int_add_wraps. reflexivity.
Qed.

Lemma CreateAggregate_commits_wrapped_sum_witness :
  let te := store.mkTable []
              [store.mkEvent Go.int_max (clock 1); store.mkEvent 1 (clock 2)] in
  let ta := store.mkTable [] [] in
  let w := mkWorld (store.mkDatabase (Some te) (Some ta)) 0 0 [] 0 in
  option_map store.rows
    (store.counter_aggregate (db (main.CreateAggregate (quiet (clock 3) 0) w)))
  = Some [store.mkAggregate Go.int_min (clock 3)].
Proof.
  intros te ta w.
  assert (Hclean : runs_clean (quiet (clock 3) 0)).
  { unfold runs_clean. repeat split; reflexivity. }
  rewrite (proj1 (CreateAggregate_commits_wrapped_sum (quiet (clock 3) 0) w te ta
                    Hclean eq_refl eq_refl)).
  reflexivity.
Defined.

(** ** Schedules *)

Lemma extends_refl (d : store.Database) : extends d d.
Proof.
  split; intros t Ht; exists []; rewrite app_nil_r; rewrite Ht;
    destruct t; reflexivity.
Qed.

Lemma extends_trans (d1 d2 d3 : store.Database) :
  extends d1 d2 -> extends d2 d3 -> extends d1 d3.
Proof.
  intros [Hc12 Ha12] [Hc23 Ha23]. split.
  - intros te Hte. destruct (Hc12 te Hte) as [m1 H2].
    destruct (Hc23 _ H2) as [m2 H3]. cbn [store.columns store.rows] in H3.
    exists (m1 ++ m2)%list. rewrite H3, app_assoc. reflexivity.
  - intros ta Hta. destruct (Ha12 ta Hta) as [m1 H2].
    destruct (Ha23 _ H2) as [m2 H3]. cbn [store.columns store.rows] in H3.
    exists (m1 ++ m2)%list. rewrite H3, app_assoc. reflexivity.
Qed.

(** What one call does to the database: nothing, one event more, or one
    snapshot more. *)
Lemma serve_db (c : Call) (env : Env) (w : World) :
  let d := db w in
  let d' := db (snd (serve c env w)) in
  d' = d
  \/ (c = PostAdd /\
      exists te,
        store.counter d = Some te /\
        d' = store.mkDatabase
               (Some (store.mkTable (store.columns te)
                        (store.rows te ++ [store.mkEvent 1 (now env)])))
               (store.counter_aggregate d))
  \/ (c = RunCreateAggregate /\
      exists ta counts,
        store.counter_aggregate d = Some ta /\
        d' = store.mkDatabase (store.counter d)
               (Some (store.mkTable (store.columns ta)
                        (store.rows ta ++ [store.mkAggregate counts (now env)])))).
Proof.
  cbn zeta. destruct c; cbn [serve].
  - pose proof (Add_cases env w) as H. cbn zeta in H.
    destruct (main.Add env http.NewResponse w) as [rw w1]. cbn [fst snd] in *.
    destruct H as [(_ & _ & Hdb & _) | (_ & _ & (te & Hte & Hdb) & _)];
      [left; exact Hdb|].
    right. left. split; [reflexivity|]. exists te. auto.
  - left. destruct (List_frame env http.NewResponse w) as (Hdb & _).
    destruct (main.List env http.NewResponse w) as [rw w1]. exact Hdb.
  - cbn [snd db].
    destruct (CreateAggregate_cases env w)
      as [(Hdb & _) | (te & ta & counts & Hte & Hta & _ & Hdb & _)];
      [left; exact Hdb|].
    right. right. split; [reflexivity|]. exists ta, counts.
    rewrite Hdb, Hte. auto.
Qed.

Lemma serve_extends (c : Call) (env : Env) (w : World) :
  extends (db w) (db (snd (serve c env w))).
Proof.
  destruct (serve_db c env w)
    as [H | [(_ & te & Hte & H) | (_ & ta & counts & Hta & H)]]; rewrite H.
  - apply extends_refl.
  - split; cbn [store.counter store.counter_aggregate].
    + intros te' Hte'. rewrite Hte in Hte'. injection Hte' as <-. eauto.
    + intros ta Hta. exists []. rewrite app_nil_r, Hta. destruct ta; reflexivity.
  - split; cbn [store.counter store.counter_aggregate].
    + intros te Hte. exists []. rewrite app_nil_r, Hte. destruct te; reflexivity.
    + intros ta' Hta'. rewrite Hta in Hta'. injection Hta' as <-. eauto.
Qed.

Lemma run_cons (c : Call) (env : Env) (rest : list (Call * Env)) (w : World) :
  snd (run ((c, env) :: rest) w) = snd (run rest (snd (serve c env w))).
Proof.
  cbn [run]. destruct (serve c env w) as [r w1]. cbn [snd].
  destruct (run rest w1). reflexivity.
Qed.

Lemma run_only_appends_aux (sched : list (Call * Env)) (w : World) :
  extends (db w) (db (snd (run sched w))).
Proof.
  revert w. induction sched as [|[c env] rest IH]; intros w.
  - apply extends_refl.
  - rewrite run_cons.
    exact (extends_trans _ _ _ (serve_extends c env w) (IH _)).
Qed.

(** X11. Both tables are append-only along every schedule of requests
    and aggregations: a table that exists stays, with its columns, and
    its rows stay first and in their order, whatever fails on the way. *)
Theorem run_only_appends (sched : list (Call * Env)) (w : World) :
  extends (db w) (db (snd (run sched w))).
Proof. exact (run_only_appends_aux sched w). Qed.

Lemma trace_cons (c : Call) (env : Env) (rest : list (Call * Env)) (w : World) :
  trace ((c, env) :: rest) w =
    ((c, fst (serve c env w)) :: fst (trace rest (snd (serve c env w))),
     snd (trace rest (snd (serve c env w)))).
Proof.
  cbn [trace]. destruct (serve c env w) as [r w1]. cbn [fst snd].
  destruct (trace rest w1). reflexivity.
Qed.

(** One call adds an event exactly when it is an [Add] answered 200. *)
Lemma serve_events (c : Call) (env : Env) (w : World) :
  events (db (snd (serve c env w))) =
    (events (db w)
     + if add_answered_200 (c, fst (serve c env w)) then 1 else 0)%nat.
Proof.
  destruct c; cbn [serve add_answered_200].
  - pose proof (Add_cases env w) as H. cbn zeta in H.
    destruct (main.Add env http.NewResponse w) as [rw w1]. cbn [fst snd] in *.
    destruct H as [(Hs & _ & Hdb & _) | (Hs & _ & (te & Hte & Hdb) & _)];
      rewrite Hs, Hdb; cbn.
    + lia.
    + unfold events. rewrite Hte. cbn. rewrite length_app. cbn. lia.
  - destruct (List_frame env http.NewResponse w) as (Hdb & _).
    destruct (main.List env http.NewResponse w) as [rw w1]. cbn [fst snd] in *.
    rewrite Hdb. lia.
  - cbn [fst snd db].
    destruct (CreateAggregate_cases env w)
      as [(Hdb & _) | (te & ta & counts & Hte & _ & _ & Hdb & _)]; rewrite Hdb.
    + lia.
    + unfold events. rewrite Hte. cbn. lia.
Qed.

(** X12. Along every schedule the number of rows of [counter] grows by
    the number of [POST /api/add] answered 200: each one stores one
    event, and nothing else (no failed request, no read, no aggregation)
    stores or removes any. *)
Theorem events_grow_by_successful_adds (sched : list (Call * Env)) (w : World) :
  events (db (snd (trace sched w))) =
    (events (db w) + List.length (filter add_answered_200 (fst (trace sched w))))%nat.
Proof.
  revert w. induction sched as [|[c env] rest IH]; intros w.
  - cbn. lia.
  - rewrite trace_cons. cbn [fst snd filter].
    rewrite IH, serve_events.
    destruct (add_answered_200 (c, fst (serve c env w))); cbn [List.length]; lia.
Qed.

(** One call gives back the connection it took. *)
Lemma serve_conns (c : Call) (env : Env) (w : World) :
  conns (snd (serve c env w)) = conns w.
Proof.
  destruct c; cbn [serve].
  - pose proof (Add_cases env w) as H. cbn zeta in H.
    destruct (main.Add env http.NewResponse w) as [rw w1]. cbn [fst snd] in *.
    destruct H as [(_ & _ & _ & _ & Hc & _) | (_ & _ & _ & _ & Hc & _)]; exact Hc.
  - destruct (List_frame env http.NewResponse w) as (_ & _ & Hc & _).
    destruct (main.List env http.NewResponse w) as [rw w1]. exact Hc.
  - cbn [snd conns].
    exact (proj1 (CreateAggregate_releases env w)).
Qed.

(** X13. No connection is lost: after every schedule of requests and
    aggregations, whatever fails on the way, as many connections are out
    of the pool as before; [Migrate] gives its connection back as well. *)
Theorem connections_are_returned (sched : list (Call * Env)) (env : Env) (w : World) :
  conns (snd (run sched w)) = conns w /\
  conns (snd (main.Migrate env w)) = conns w.
Proof.
  split.
  - revert w. induction sched as [|[c e] rest IH]; intros w; [reflexivity|].
    rewrite run_cons, IH. apply serve_conns.
  - destruct (Migrate_cases env w) as (_ & _ & Hc & _). exact Hc.
Qed.

(** X14. [Migrate], [Add] and [List] leave no transaction behind: on
    every path, with every failure, as many transactions are open after
    the call as before. *)
Theorem Migrate_Add_List_end_their_transaction (env : Env) (w : World) :
  open_txs (snd (main.Migrate env w)) = open_txs w /\
  open_txs (snd (main.Add env http.NewResponse w)) = open_txs w /\
  open_txs (snd (main.List env http.NewResponse w)) = open_txs w.
Proof.
  destruct (other_operations_release env w) as ((H1 & _) & (H2 & _) & (H3 & _)).
  auto.
Qed.

(** ** The counter and the events *)

(** Even when the iteration fails, the loop comes out with a count of
    the rows it has seen: at most their number. *)
Lemma scan_rows_bounds (env : Env) (l : list store.Event) :
  Forall (fun e => store.count e = 1) l ->
  forall n counts total,
    0 <= counts -> counts + Z.of_nat (List.length l) <= Go.int_max ->
    main.scan_rows env n (map store.count l) counts = inr total ->
    counts <= total <= counts + Z.of_nat (List.length l).
Proof.
  induction 1 as [|e l He Hl IH]; intros n counts total H0 Hmax Hscan.
  - cbn in Hscan. injection Hscan as <-. cbn. lia.
  - cbn [map main.scan_rows List.length] in *.
    destruct (next_err env n).
    { injection Hscan as <-. lia. }
    destruct (scan_err env n); [discriminate|].
    rewrite He in Hscan.
    rewrite int_add_small in Hscan by (unfold Go.int_min, Go.int_max in *; lia).
    assert (H1 : 0 <= counts + 1) by lia.
    assert (H2 : counts + 1 + Z.of_nat (List.length l) <= Go.int_max) by lia.
    pose proof (IH (S n) (counts + 1) total H1 H2 Hscan). lia.
Qed.

Lemma serve_keeps_consistent (c : Call) (env : Env) (w : World) :
  consistent (db w) ->
  Z.of_nat (events (db w)) < Go.int_max ->
  consistent (db (snd (serve c env w))).
Proof.
  intros Hcons Hmax.
  destruct c.
  - destruct (serve_db PostAdd env w)
      as [H | [(_ & te & Hte & H) | (Habs & _)]]; [| |discriminate]; rewrite H.
    + exact Hcons.
    + destruct Hcons as (te' & ta & Hte' & Hta & Hones & Hbound).
      rewrite Hte in Hte'. injection Hte' as <-.
      exists (store.mkTable (store.columns te)
                (store.rows te ++ [store.mkEvent 1 (now env)])), ta.
      cbn [store.counter store.counter_aggregate store.rows].
      repeat split; [assumption | |].
      * apply Forall_app. split; [assumption|]. repeat constructor.
      * eapply Forall_impl; [|exact Hbound]. cbn beta. intros a Ha.
        rewrite length_app. cbn [List.length]. lia.
  - destruct (serve_db GetList env w)
      as [H | [(Habs & _) | (Habs & _)]]; [|discriminate|discriminate].
    rewrite H. exact Hcons.
  - cbn [serve snd db].
    destruct (CreateAggregate_cases env w)
      as [(Hdb & _) | (te & ta & counts & Hte & Hta & Hscan & Hdb & _)];
      rewrite Hdb; [exact Hcons|].
    destruct Hcons as (te' & ta' & Hte' & Hta' & Hones & Hbound).
    rewrite Hte in Hte'. injection Hte' as <-.
    rewrite Hta in Hta'. injection Hta' as <-.
    assert (Hlen : Z.of_nat (events (db w)) = Z.of_nat (List.length (store.rows te))).
    { unfold events. rewrite Hte. reflexivity. }
    apply (scan_rows_bounds env _ Hones) in Hscan; [|lia|lia].
    exists te, (store.mkTable (store.columns ta)
                  (store.rows ta ++ [store.mkAggregate counts (now env)])).
    cbn [store.counter store.counter_aggregate store.rows].
    repeat split; [assumption|].
    apply Forall_app. split; [assumption|].
    constructor; [|constructor]. cbn [store.counts]. lia.
Qed.

Lemma run_keeps_consistent (sched : list (Call * Env)) :
  forall w,
    consistent (db w) ->
    Z.of_nat (events (db w)) + Z.of_nat (List.length sched) <= Go.int_max ->
    consistent (db (snd (run sched w))).
Proof.
  induction sched as [|[c env] rest IH]; intros w Hcons Hmax; [exact Hcons|].
  cbn [List.length] in Hmax. rewrite run_cons. apply IH.
  - apply serve_keeps_consistent; [assumption | lia].
  - rewrite serve_events.
    destruct (add_answered_200 (c, fst (serve c env w))); lia.
Qed.

Lemma reported_bounds (d : store.Database) :
  consistent d -> 0 <= reported d <= Z.of_nat (events d).
Proof.
  intros (te & ta & Hte & Hta & _ & Hbound).
  rewrite (reported_hd d ta Hta). unfold events. rewrite Hte.
  destruct (store.order_by_created_at_desc (store.rows ta)) as [|m rest] eqn:E;
    cbn [hd_error]; [lia|].
  destruct (order_by_created_at_desc_head _ _ _ E) as [Hin _].
  rewrite Forall_forall in Hbound. exact (Hbound m Hin).
Qed.

(** X15. The counter never runs ahead of the events: after every
    schedule of requests and aggregations on a store as the code keeps
    it, whatever fails on the way (a failing row iteration included), the
    counter that [List] reports is between 0 and the number of rows of
    [counter]. *)
Theorem counter_never_exceeds_events (sched : list (Call * Env)) (w : World) :
  consistent (db w) ->
  Z.of_nat (events (db w)) + Z.of_nat (List.length sched) <= Go.int_max ->
  let d := db (snd (run sched w)) in
  0 <= reported d <= Z.of_nat (events d).
Proof.
  intros Hcons Hmax d. apply reported_bounds.
  apply run_keeps_consistent; assumption.
Qed.

Lemma migrated_consistent : consistent (db migrated).
Proof. eexists _, _. cbn. repeat split; constructor. Qed.

Lemma counter_never_exceeds_events_witness :
  let sched := [(PostAdd, quiet (clock 1) 0); (PostAdd, quiet (clock 2) 0);
                (RunCreateAggregate, iteration_fails 1 (clock 3));
                (RunCreateAggregate, quiet (clock 4) 0)] in
  let d := db (snd (run sched migrated)) in
  0 <= reported d <= Z.of_nat (events d).
Proof.
  intros sched d.
  apply (counter_never_exceeds_events sched migrated migrated_consistent).
  vm_compute. discriminate.
Defined.

(** X16. As long as no aggregation meets a failing row iteration, the
    counter that [List] reports never goes down: after any schedule on a
    migrated store, any further schedule leaves it equal or greater. *)
Theorem reads_never_decrease_without_iteration_errors
    (before between : list (Call * Env)) :
  Z.of_nat (List.length before) + Z.of_nat (List.length between) <= Go.int_max ->
  Forall (fun ce => forall n, next_err (snd ce) n = None) (before ++ between) ->
  let w1 := snd (run before migrated) in
  let w2 := snd (run between w1) in
  reported (db w1) <= reported (db w2).
Proof. exact (counter_monotone_without_iteration_errors before between). Qed.

Lemma reads_never_decrease_without_iteration_errors_witness :
  let before := [(PostAdd, quiet (clock 1) 0);
                 (RunCreateAggregate, quiet (clock 2) 0)] in
  let between := [(PostAdd, quiet (clock 3) 0);
                  (PostAdd, scan_fails 0 (clock 4));
                  (RunCreateAggregate, scan_fails 1 (clock 5));
                  (RunCreateAggregate, quiet (clock 6) 0)] in
  reported (db (snd (run before migrated)))
  <= reported (db (snd (run between (snd (run before migrated))))).
Proof.
  intros before between.
  apply (reads_never_decrease_without_iteration_errors before between).
  - vm_compute. discriminate.
  - repeat constructor.
Defined.

(** The first row of the sorted table is the new row when the stored
    value of the new row is greater than all the others. *)
Lemma order_by_created_at_desc_app_latest (l : list store.Aggregate) a :
  (forall r, In r l ->
     sqlite3.text_compare
       (sqlite3.timestamp_text (store.agg_created_at r))
       (sqlite3.timestamp_text (store.agg_created_at a)) = Lt) ->
  hd_error (store.order_by_created_at_desc (l ++ [a])) = Some a.
Proof.
  intros Hlater. rewrite hd_order_app.
  destruct (store.order_by_created_at_desc l) as [|m rest] eqn:E;
    cbn [hd_error]; [reflexivity|].
  destruct (order_by_created_at_desc_head _ _ _ E) as [Hin _].
  specialize (Hlater m Hin). unfold store.datetime_leb.
  rewrite (text_compare_antisym (sqlite3.timestamp_text (store.agg_created_at m))
             (sqlite3.timestamp_text (store.agg_created_at a))), Hlater.
  reflexivity.
Qed.

(** X17. A read after an aggregation sees it: when a run of
    [CreateAggregate] without a failing call is stamped with a time whose
    stored text is greater than that of every stored snapshot (as is the
    text of a later instant under the same zone offset, in years of four
    digits), the next [List] on a working connection answers 200 with
    the (wrapped) sum of the [count] column and that stamp. *)
Theorem List_after_aggregation_answers_the_sum
    (agg_env list_env : Env) (w : World) te ta :
  store.counter (db w) = Some te ->
  store.counter_aggregate (db w) = Some ta ->
  (forall r, In r (store.rows ta) ->
     sqlite3.text_compare
       (sqlite3.timestamp_text (store.agg_created_at r))
       (sqlite3.timestamp_text (now agg_env)) = Lt \/
     (time.zone_offset (store.agg_created_at r) = time.zone_offset (now agg_env) /\
      sqlite3.year_in_layout (store.agg_created_at r) = true /\
      sqlite3.year_in_layout (now agg_env) = true /\
      time.unix_nano (store.agg_created_at r) < time.unix_nano (now agg_env))) ->
  runs_clean agg_env ->
  conn_err list_env = None -> query_err list_env = None ->
  let rw := fst (main.List list_env http.NewResponse (main.CreateAggregate agg_env w)) in
  http.status rw = Some http.StatusOK /\
  http.body rw =
    "{" ++ Go.dq ++ "counter" ++ Go.dq ++ ":"
      ++ Go.itoa (Go.wrap_int (sum_counts (store.rows te))) ++ ","
      ++ Go.dq ++ "lastDate" ++ Go.dq ++ ":"
      ++ Go.dq ++ time.Format_RFC3339 (now agg_env) ++ Go.dq ++ "}".
Proof.
  intros Hte Hta Hlater' Hclean Hc Hq rw. subst rw.
  assert (Hlater : forall r, In r (store.rows ta) ->
            sqlite3.text_compare
              (sqlite3.timestamp_text (store.agg_created_at r))
              (sqlite3.timestamp_text (now agg_env)) = Lt).
  { intros r Hr. destruct (Hlater' r Hr) as [H | (Hz & Hy & Hy' & Hlt)];
      [exact H | exact (timestamp_text_lt _ _ Hz Hy Hy' Hlt)]. }
  clear Hlater'.
  pose proof (CreateAggregate_clean agg_env w te ta Hclean Hte Hta) as Hdb.
  change 0 with (Go.wrap_int 0) in Hdb at 1.
  rewrite fold_int_add_wraps in Hdb. cbn [Z.add] in Hdb.
  fold (sum_counts (store.rows te)) in Hdb.
  set (a := store.mkAggregate (Go.wrap_int (sum_counts (store.rows te))) (now agg_env))
    in *.
  rewrite (List_answer list_env (main.CreateAggregate agg_env w)
             (store.mkTable (store.columns ta) (store.rows ta ++ [a])));
    [ | rewrite Hdb; reflexivity | exact Hc | exact Hq ].
  cbn [store.rows].
  pose proof (order_by_created_at_desc_app_latest (store.rows ta) a Hlater) as Hhd.
  destruct (store.order_by_created_at_desc (store.rows ta ++ [a])) as [|row rest];
    [discriminate|].
  cbn [hd_error] in Hhd. injection Hhd as ->.
  rewrite Marshal_counter_lastDate, encode_string_RFC3339.
  split; [reflexivity|].
  cbn [fst main.write_ok http.Write http.body http.WriteHeader http.status
         http.Header_Set http.NewResponse http.Header a store.counts
         store.agg_created_at].
  cbn [String.append]. rewrite !string_app_assoc. reflexivity.
Qed.

Lemma List_after_aggregation_answers_the_sum_witness :
  let w := snd (run [(PostAdd, quiet (clock 1) 0);
                     (RunCreateAggregate, quiet (clock 2) 0);
                     (PostAdd, quiet (clock 3) 0)] migrated) in
  http.body (fst (main.List (quiet (clock 5) 0) http.NewResponse
                    (main.CreateAggregate (quiet (clock 4) 0) w)))
  = "{" ++ Go.dq ++ "counter" ++ Go.dq ++ ":2," ++ Go.dq ++ "lastDate" ++ Go.dq ++ ":"
      ++ Go.dq ++ "2023-11-14T22:13:24Z" ++ Go.dq ++ "}".
Proof.
  intros w.
  assert (Hclean : runs_clean (quiet (clock 4) 0)).
  { unfold runs_clean. repeat split; reflexivity. }
  assert (Hlater : forall r,
             In r [store.mkAggregate 1 (clock 2)] ->
             sqlite3.text_compare
               (sqlite3.timestamp_text (store.agg_created_at r))
               (sqlite3.timestamp_text (now (quiet (clock 4) 0))) = Lt \/
             (time.zone_offset (store.agg_created_at r)
              = time.zone_offset (now (quiet (clock 4) 0)) /\
              sqlite3.year_in_layout (store.agg_created_at r) = true /\
              sqlite3.year_in_layout (now (quiet (clock 4) 0)) = true /\
              time.unix_nano (store.agg_created_at r)
              < time.unix_nano (now (quiet (clock 4) 0)))).
  { intros r [<- | []]. right. repeat split; reflexivity. }
  rewrite (proj2 (List_after_aggregation_answers_the_sum
                    (quiet (clock 4) 0) (quiet (clock 5) 0) w
                    (store.mkTable [store.mkColumn "count" store.INTEGER true;
                                    store.mkColumn "created_at" store.DATETIME true]
                       [store.mkEvent 1 (clock 1); store.mkEvent 1 (clock 3)])
                    (store.mkTable [store.mkColumn "counts" store.INTEGER true;
                                    store.mkColumn "created_at" store.DATETIME true]
                       [store.mkAggregate 1 (clock 2)])
                    eq_refl eq_refl Hlater Hclean eq_refl eq_refl)).
  reflexivity.
Defined.

(** ** The start of the process *)

(** What [Migrate] returns does not depend on the store: the two
    statements are [CREATE TABLE IF NOT EXISTS]. *)
Lemma Migrate_error_independent (env : Env) (w1 w2 : World) :
  fst (main.Migrate env w1) = fst (main.Migrate env w2).
Proof.
  unfold main.Migrate, main.deferred_close, Conn, BeginTx, ExecContext, Commit,
    Rollback, Close.
  destruct (conn_err env); [reflexivity|].
  destruct (begin_err env); [reflexivity|].
  cbn [done view db conns open_txs logged goroutines].
  destruct (exec_err env 0%nat); [destruct (rollback_err env); reflexivity|].
  cbn [done view db conns open_txs logged goroutines].
  destruct (exec_err env 1%nat); [destruct (rollback_err env); reflexivity|].
  cbn [done view db conns open_txs logged goroutines].
  destruct (commit_err env); reflexivity.
Qed.

Lemma create_tables_keep (d : store.Database) :
  let d' := store.create_counter_aggregate (store.create_counter d) in
  (forall te, store.counter d = Some te -> store.counter d' = Some te) /\
  (forall ta, store.counter_aggregate d = Some ta ->
     store.counter_aggregate d' = Some ta).
Proof.
  destruct d as [[te|] [ta|]]; cbn; split; intros ? H;
    first [exact H | discriminate].
Qed.

Lemma main_cases (environ : string -> option string) (open_err : option Go.error)
    (env : Env) (w : World) :
  match main.main environ open_err env w with
  | main.Fatal w' =>
      db w' = db w /\
      exists err,
        (open_err = Some err \/
         open_err = None /\ fst (main.Migrate env w) = Some err) /\
        last (logged w') EmptyString = Go.Error err
  | main.Listening Addr dbUrl w' =>
      open_err = None /\ fst (main.Migrate env w) = None /\
      Addr = main.LookupEnv_or environ "HOST" "0.0.0.0" ++ ":"
               ++ main.LookupEnv_or environ "PORT" "80" /\
      dbUrl = main.LookupEnv_or environ "DATABASE_URL" "./db.sqlite" /\
      db w' = store.create_counter_aggregate (store.create_counter (db w)) /\
      conns w' = conns w /\ open_txs w' = open_txs w
  end.
Proof.
  unfold main.main.
  destruct open_err as [e|].
  { split; [reflexivity|]. exists e. split; [auto|].
    unfold log.Println. cbn [logged]. apply last_last. }
  set (w2 := log.Println_text "Migrating database in progress"
               (log.Println_text "Server is starting up" w)).
  pose proof (Migrate_cases env w2) as H. cbn zeta in H.
  pose proof (Migrate_error_independent env w2 w) as Hind.
  destruct (main.Migrate env w2) as [[e|] w3]; cbn [fst snd] in *.
  - destruct H as [[[_ Hdb] | [Habs _]] _]; [|discriminate].
    split; [exact Hdb|]. exists e. split; [auto|].
    unfold log.Println. cbn [logged]. apply last_last.
  - destruct H as [[[[err Habs] _] | [_ Hdb]] (Ht & Hc & _)]; [discriminate|].
    cbn [log.Println_text db conns open_txs].
    repeat split; auto.
Qed.

(** X18. The start of the process: when [sql.Open] or [Migrate] fails,
    [main] ends in [log.Fatalln] with the error as the last line of the
    log and the database as it was found; otherwise the server is set up
    on the address made of the value of HOST (0.0.0.0 when not set), a
    colon and the value of PORT (80 when not set), over a database that
    has both tables, the tables it had before unchanged. *)
Theorem main_starts_on_a_migrated_store
    (environ : string -> option string) (open_err : option Go.error)
    (env : Env) (w : World) :
  match main.main environ open_err env w with
  | main.Fatal w' =>
      db w' = db w /\
      exists err,
        (open_err = Some err \/
         open_err = None /\ fst (main.Migrate env w) = Some err) /\
        last (logged w') EmptyString = Go.Error err
  | main.Listening Addr dbUrl w' =>
      open_err = None /\ fst (main.Migrate env w) = None /\
      Addr = match environ "HOST" with Some host => host | None => "0.0.0.0" end
               ++ ":"
               ++ match environ "PORT" with Some port => port | None => "80" end /\
      dbUrl = match environ "DATABASE_URL" with
              | Some url => url
              | None => "./db.sqlite"
              end /\
      store.counter (db w') <> None /\
      store.counter_aggregate (db w') <> None /\
      (forall te, store.counter (db w) = Some te ->
         store.counter (db w') = Some te) /\
      (forall ta, store.counter_aggregate (db w) = Some ta ->
         store.counter_aggregate (db w') = Some ta)
  end.
Proof.
  pose proof (main_cases environ open_err env w) as H.
  destruct (main.main environ open_err env w) as [w' | Addr dbUrl w'];
    [exact H|].
  destruct H as (Ho & Hm & Ha & Hu & Hdb & _).
  destruct (create_tables_present (db w)) as [Hc Hagg].
  destruct (create_tables_keep (db w)) as [Hkc Hka].
  rewrite Hdb. repeat split; assumption.
Qed.

Lemma main_starts_on_a_migrated_store_witness :
  let environ := fun key : string =>
                   if String.eqb key "HOST" then Some "127.0.0.1"
                   else if String.eqb key "PORT" then Some "8080"
                   else None in
  exists w',
    main.main environ None (quiet (clock 0) 0) boot
    = main.Listening "127.0.0.1:8080" "./db.sqlite" w' /\
    store.counter (db w') <> None /\ store.counter_aggregate (db w') <> None.
Proof.
  intros environ.
  pose proof (main_starts_on_a_migrated_store environ None (quiet (clock 0) 0) boot)
    as H.
  destruct (main.main environ None (quiet (clock 0) 0) boot) as [w' | Addr dbUrl w']
    eqn:E; [discriminate E|].
  destruct H as (_ & _ & Ha & Hu & Hc & Hagg & _).
  exists w'. cbn in Ha, Hu. subst Addr dbUrl. auto.
Defined.

(** X19. Once [main] has set up the server, requests find their tables:
    after any schedule of requests and aggregations, an [Add] and a
    [List] whose calls to the driver go through are answered 200. *)
Theorem requests_after_start_are_answered_200
    (environ : string -> option string) (env : Env) (w : World)
    (Addr dbUrl : string) (w1 : World)
    (sched : list (Call * Env)) (e : Env) :
  main.main environ None env w = main.Listening Addr dbUrl w1 ->
  runs_clean e ->
  let w2 := snd (run sched w1) in
  http.status (fst (main.Add e http.NewResponse w2)) = Some http.StatusOK /\
  http.status (fst (main.List e http.NewResponse w2)) = Some http.StatusOK.
Proof.
  intros Hmain (Hc & Hb & He & Hq & _ & _ & Hm) w2.
  pose proof (main_cases environ None env w) as H. rewrite Hmain in H.
  destruct H as (_ & _ & _ & _ & Hdb & _).
  destruct (create_tables_present (db w)) as [Hte Hta]. rewrite <- Hdb in Hte, Hta.
  destruct (run_only_appends_aux sched w1) as [Hext_c Hext_a]. fold w2 in Hext_c, Hext_a.
  destruct (store.counter (db w1)) as [te|] eqn:Ete; [|contradiction].
  destruct (store.counter_aggregate (db w1)) as [ta|] eqn:Eta; [|contradiction].
  destruct (Hext_c te eq_refl) as [m1 H1]. destruct (Hext_a ta eq_refl) as [m2 H2].
  split.
  - rewrite Add_response. unfold Add_first_error, store.insert_counter.
    rewrite Hc, Hb, He, H1, Hm. reflexivity.
  - unfold main.List, Conn. rewrite Hc. cbn [fst].
    unfold QueryRowContext_Scan, store.select_latest.
    cbn [db]. rewrite Hq, H2.
    destruct (firstn 1 _); reflexivity.
Qed.

Lemma requests_after_start_are_answered_200_witness :
  let sched := [(PostAdd, quiet (clock 1) 0);
                (RunCreateAggregate, query_fails (clock 2));
                (GetList, quiet (clock 3) 0)] in
  let w1 := mkWorld (db migrated) 0 0
              ["Server is starting up"; "Migrating database in progress";
               "Migrating database completed"] 0 in
  let w2 := snd (run sched w1) in
  http.status (fst (main.Add (quiet (clock 4) 0) http.NewResponse w2)) = Some 200 /\
  http.status (fst (main.List (quiet (clock 4) 0) http.NewResponse w2)) = Some 200.
Proof.
  intros sched w1 w2.
  assert (Hclean : runs_clean (quiet (clock 4) 0)).
  { unfold runs_clean. repeat split; reflexivity. }
  exact (requests_after_start_are_answered_200 (fun _ => None) (quiet (clock 0) 0)
           boot "0.0.0.0:80" "./db.sqlite" w1 sched (quiet (clock 4) 0)
           eq_refl Hclean).
Defined.
